(** * The labeling pipeline of ml.school ([pipelines/labeling.py])

    A shallow embedding of the [Labeling] flow: the label generator
    [_get_label], the SQLite adapter [_label_sqlite_data], the SageMaker/S3
    adapter [_label_sagemaker_data] and the dispatch in [start].

    Conventions.
    - A Python [str] is a Rocq [string] read as a sequence of code points
      below 256.
    - A Python [float] is a [pyfloat]: a rational for a finite value, the two
      infinities, or NaN.  The program only compares floats, and comparison
      of finite floats is comparison of the rationals they denote.
    - Effects are explicit: every function of the flow is a state-and-error
      computation over a [world] holding the random generator, the SQLite
      files, the S3 objects, the clock and the trace of calls made so far. *)

From Stdlib Require Import QArith ZArith String Ascii List Sorted OrderedTypeEx.
From stdpp Require Import gmap strings list fin_maps.

Local Open Scope string_scope.
Set Warnings "-register-all".

(** ** Python values *)

Inductive pyfloat : Type :=
  | Finite (q : Q)
  | PosInf
  | NegInf
  | NaN.

Definition Qltb (a b : Q) : bool := negb (Qle_bool b a).

(** [x < y] on floats: false as soon as one side is NaN. *)
Definition float_lt (x y : pyfloat) : bool :=
  match x, y with
  | NaN, _ | _, NaN => false
  | Finite a, Finite b => Qltb a b
  | Finite _, PosInf => true
  | Finite _, NegInf => false
  | NegInf, NegInf => false
  | NegInf, _ => true
  | PosInf, _ => false
  end.

(** [x <= y] on floats. *)
Definition float_le (x y : pyfloat) : bool :=
  match x, y with
  | NaN, _ | _, NaN => false
  | Finite a, Finite b => Qle_bool a b
  | Finite _, PosInf => true
  | Finite _, NegInf => false
  | NegInf, _ => true
  | PosInf, PosInf => true
  | PosInf, _ => false
  end.

Inductive exn : Type :=
  | ValueError (message : string)
  | RuntimeError (message : string)
  | IndexError
  | DatabaseError
  | StorageError.

Inductive result (A : Type) : Type :=
  | Ok (a : A)
  | Raise (e : exn).
Arguments Ok {A} a.
Arguments Raise {A} e.

(** ** The random module

    [random.random()] returns a float in [[0, 1)]; [random.choice(seq)]
    indexes [seq] at [_randbelow(len(seq))].  The generator is global state;
    its two draws are the interface, their ranges the laws. *)

Class RandomGen (G : Type) : Type := {
  random : G -> Q * G;
  randbelow : nat -> G -> nat * G;
  random_range : forall g, (0 <= fst (random g))%Q /\ (fst (random g) < 1)%Q;
  randbelow_range : forall n g, 0 < n -> fst (randbelow n g) < n
}.

(** A generator reading its draws off a tape of 53-bit words, as CPython's
    [random()] builds a float from 53 random bits. *)
Definition two53 : Z := 9007199254740992.

Definition tape_random (t : list Z) : Q * list Z :=
  match t with
  | [] => (0 # 1, [])
  | z :: t' => (Qmake (z mod two53) (Z.to_pos two53), t')
  end.

Definition tape_randbelow (n : nat) (t : list Z) : nat * list Z :=
  match t with
  | [] => (0, [])
  | z :: t' => (Z.to_nat (z mod Z.of_nat n), t')
  end.

(** ** Rows *)

(** A row of the SQLite table [data]: [species] is the label column, NULL
    when the sample is still unlabeled; [features] stands for the remaining
    columns. *)
Module Sqlite.
Record row : Type := Row {
  uuid : string;
  prediction : string;
  species : option string;
  features : list (string * string)
}.
End Sqlite.

(** A row of the data frame returned by [load_unlabeled_data]. *)
Module S3.
Record row : Type := Row {
  event_id : string;
  prediction : string;
  features : list (string * string)
}.
End S3.

Record datetime : Type := Datetime {
  year : nat; month : nat; day : nat;
  hour : nat; minute : nat; second : nat
}.

(** The connection object of [sqlite3]: the file it was opened on, the
    table as this connection sees it (uncommitted updates included) and
    whether [close()] has been called. *)
Record connection : Type := Connection {
  conn_path : string;
  conn_data : list Sqlite.row;
  conn_closed : bool
}.

Inductive log_record : Type :=
  | LoadedFromDatabase (n : nat)
  | LoadedFromS3 (n : nat)
  | LabeledSamples (n : nat).

(** The calls that reach outside the process, in program order. *)
Inductive event : Type :=
  | SqlConnect (path : string)
  | SqlSelectUnlabeled
  | SqlUpdate (label uuid : string)
  | SqlCommit
  | SqlClose
  | LogInfo (r : log_record)
  | S3Client
  | S3Load (datastore ground_truth : string)
  | S3PutObject (bucket key body : string).

(** The parameters of the flow. *)
Record Labeling : Type := Flow {
  datastore_uri : string;
  ground_truth_uri : option string;
  ground_truth_quality : pyfloat
}.

Definition LABELS : list string := ["Adelie"; "Chinstrap"; "Gentoo"].

(** ** Text helpers: [str.split], [str.join], [json.dumps], [strftime] *)

Definition dquote : ascii := "034"%char.
Definition backslash : ascii := "092"%char.
Definition newline : ascii := "010"%char.

(** [s.split(sep)] for a one-character separator: [k] separators give
    [k + 1] parts, and the empty string gives one empty part. *)
Fixpoint split (sep : ascii) (s : string) : list string :=
  match s with
  | EmptyString => [EmptyString]
  | String c s' =>
      if Ascii.eqb c sep then EmptyString :: split sep s'
      else match split sep s' with
           | [] => [String c EmptyString]
           | p :: ps => String c p :: ps
           end
  end.

(** [sep.join(parts)]. *)
Definition join (sep : string) (parts : list string) : string :=
  String.concat sep parts.

Definition digit (n : nat) : ascii := ascii_of_nat (48 + n mod 10).

Definition pad2 (n : nat) : string :=
  String (digit (n / 10)) (String (digit n) EmptyString).

Definition pad4 (n : nat) : string :=
  String (digit (n / 1000)) (String (digit (n / 100)) (pad2 n)).

(** [f"{t:%Y/%m/%d/%H/%M%S}"]. *)
Definition strftime (t : datetime) : string :=
  pad4 (year t) ++ "/" ++ pad2 (month t) ++ "/" ++ pad2 (day t) ++ "/"
  ++ pad2 (hour t) ++ "/" ++ pad2 (minute t) ++ pad2 (second t).

Definition hexdigit (n : nat) : ascii :=
  if (n <? 10)%nat then ascii_of_nat (48 + n) else ascii_of_nat (87 + n).

(** One character of a JSON string under [ensure_ascii=True]: the quote and
    the backslash are escaped, the five short escapes are used, every other
    character outside [' '..'~'] becomes [\u00xx]. *)
Definition escape_char (c : ascii) : string :=
  let n := nat_of_ascii c in
  if (n =? 34)%nat then String backslash (String dquote EmptyString)
  else if (n =? 92)%nat then String backslash (String backslash EmptyString)
  else if (n =? 10)%nat then "\n"
  else if (n =? 13)%nat then "\r"
  else if (n =? 9)%nat then "\t"
  else if (n =? 12)%nat then "\f"
  else if (n =? 8)%nat then "\b"
  else if ((32 <=? n) && (n <=? 126))%nat then String c EmptyString
  else "\u00" ++ String (hexdigit (n / 16)) (String (hexdigit (n mod 16)) EmptyString).

Fixpoint escape (s : string) : string :=
  match s with
  | EmptyString => EmptyString
  | String c s' => escape_char c ++ escape s'
  end.

Definition quote (s : string) : string :=
  String dquote (escape s ++ String dquote EmptyString).

(** The JSON values the flow builds: strings, lists and dicts (a Python
    dict keeps its keys in insertion order). *)
Inductive json : Type :=
  | JString (s : string)
  | JArray (items : list json)
  | JObject (members : list (string * json)).

(** [json.dumps(j)] with its default separators [", "] and [": "]. *)
Fixpoint dumps (j : json) : string :=
  match j with
  | JString s => quote s
  | JArray items => "[" ++ join ", " (map dumps items) ++ "]"
  | JObject members =>
      "{" ++ join ", " (map (fun kv => quote (fst kv) ++ ": " ++ dumps (snd kv)) members)
      ++ "}"
  end.

(** [j[key]] on a dict. *)
Definition member (key : string) (j : json) : option json :=
  match j with
  | JObject members => snd <$> find (fun kv => String.eqb (fst kv) key) members
  | _ => None
  end.

Fixpoint occurs (c : ascii) (s : string) : bool :=
  match s with
  | EmptyString => false
  | String c' s' => Ascii.eqb c' c || occurs c s'
  end.

Fixpoint contains (needle haystack : string) : bool :=
  String.prefix needle haystack
  || match haystack with
     | EmptyString => false
     | String _ rest => contains needle rest
     end.

(** [j[k1][k2]...]. *)
Fixpoint member_path (path : list string) (j : json) : option json :=
  match path with
  | [] => Some j
  | key :: path' =>
      match member key j with
      | Some j' => member_path path' j'
      | None => None
      end
  end.

Definition in_quotes (s : string) : string :=
  String dquote (s ++ String dquote "").

(** *** Reading JSON back

    A reader for the JSON texts of this file: string literals, arrays and
    objects in the layout [json.dumps] writes by default ([", "] between
    items, [": "] after a key).  It is written from the JSON grammar, not
    from [dumps], and reads a text one character at a time. *)

Definition hexval (c : ascii) : option nat :=
  let n := nat_of_ascii c in
  if ((48 <=? n) && (n <=? 57))%nat then Some (n - 48)%nat
  else if ((97 <=? n) && (n <=? 102))%nat then Some (n - 87)%nat
  else if ((65 <=? n) && (n <=? 70))%nat then Some (n - 55)%nat
  else None.

Definition push (c : ascii) (r : option (string * string)) : option (string * string) :=
  match r with
  | Some (str, rest) => Some (String c str, rest)
  | None => None
  end.

(** The four hex digits of a [\u] escape, as a character when the code
    point is below 256. *)
Definition read_hex4 (h1 h2 h3 h4 : ascii) : option ascii :=
  match hexval h1, hexval h2, hexval h3, hexval h4 with
  | Some a, Some b, Some c, Some d =>
      let code := (((a * 16 + b) * 16 + c) * 16 + d)%nat in
      if (code <? 256)%nat then Some (ascii_of_nat code) else None
  | _, _, _, _ => None
  end.

(** The characters of a string literal after its opening quote: the decoded
    string and the text after the closing quote.  A raw control character is
    refused, as [json.loads] does. *)
Fixpoint read_string (s : string) : option (string * string) :=
  match s with
  | EmptyString => None
  | String c s' =>
      if Ascii.eqb c dquote then Some (EmptyString, s')
      else if Ascii.eqb c backslash then
        match s' with
        | EmptyString => None
        | String e s'' =>
            if Ascii.eqb e dquote then push dquote (read_string s'')
            else if Ascii.eqb e backslash then push backslash (read_string s'')
            else if Ascii.eqb e "/" then push "/" (read_string s'')
            else if Ascii.eqb e "n" then push newline (read_string s'')
            else if Ascii.eqb e "r" then push (ascii_of_nat 13) (read_string s'')
            else if Ascii.eqb e "t" then push (ascii_of_nat 9) (read_string s'')
            else if Ascii.eqb e "f" then push (ascii_of_nat 12) (read_string s'')
            else if Ascii.eqb e "b" then push (ascii_of_nat 8) (read_string s'')
            else if Ascii.eqb e "u" then
              match s'' with
              | String h1 (String h2 (String h3 (String h4 s4))) =>
                  match read_hex4 h1 h2 h3 h4 with
                  | Some c' => push c' (read_string s4)
                  | None => None
                  end
              | _ => None
              end
            else None
        end
      else if (nat_of_ascii c <? 32)%nat then None
      else push c (read_string s')
  end.

(** A value at the head of a text, with the text that follows it.  [fuel]
    bounds the number of nested calls. *)
Fixpoint loads_value (fuel : nat) (s : string) {struct fuel}
  : option (json * string) :=
  match fuel with
  | O => None
  | S fuel' =>
      match s with
      | EmptyString => None
      | String c s' =>
          if Ascii.eqb c dquote then
            match read_string s' with
            | Some (str, rest) => Some (JString str, rest)
            | None => None
            end
          else if Ascii.eqb c "[" then
            match s' with
            | EmptyString => None
            | String c' rest =>
                if Ascii.eqb c' "]" then Some (JArray [], rest)
                else match loads_items fuel' s' with
                     | Some (items, rest') => Some (JArray items, rest')
                     | None => None
                     end
            end
          else if Ascii.eqb c "{" then
            match s' with
            | EmptyString => None
            | String c' rest =>
                if Ascii.eqb c' "}" then Some (JObject [], rest)
                else match loads_members fuel' s' with
                     | Some (members, rest') => Some (JObject members, rest')
                     | None => None
                     end
            end
          else None
      end
  end
with loads_items (fuel : nat) (s : string) {struct fuel}
  : option (list json * string) :=
  match fuel with
  | O => None
  | S fuel' =>
      match loads_value fuel' s with
      | Some (j, String c rest) =>
          if Ascii.eqb c "]" then Some ([j], rest)
          else if Ascii.eqb c "," then
            match rest with
            | String sp rest' =>
                if Ascii.eqb sp " " then
                  match loads_items fuel' rest' with
                  | Some (js, rest'') => Some (j :: js, rest'')
                  | None => None
                  end
                else None
            | EmptyString => None
            end
          else None
      | _ => None
      end
  end
with loads_members (fuel : nat) (s : string) {struct fuel}
  : option (list (string * json) * string) :=
  match fuel with
  | O => None
  | S fuel' =>
      match s with
      | String q s' =>
          if Ascii.eqb q dquote then
            match read_string s' with
            | Some (key, String c1 (String c2 s'')) =>
                if Ascii.eqb c1 ":" && Ascii.eqb c2 " " then
                  match loads_value fuel' s'' with
                  | Some (j, String c rest) =>
                      if Ascii.eqb c "}" then Some ([(key, j)], rest)
                      else if Ascii.eqb c "," then
                        match rest with
                        | String sp rest' =>
                            if Ascii.eqb sp " " then
                              match loads_members fuel' rest' with
                              | Some (ms, rest'') => Some ((key, j) :: ms, rest'')
                              | None => None
                              end
                            else None
                        | EmptyString => None
                        end
                      else None
                  | _ => None
                  end
                else None
            | _ => None
            end
          else None
      | EmptyString => None
      end
  end.

(** [json.loads(s)] on such a text: one value and nothing after it. *)
Definition loads (s : string) : option json :=
  match loads_value (String.length s) s with
  | Some (j, EmptyString) => Some j
  | _ => None
  end.

(** The number of nested calls that reading a value back takes. *)
Fixpoint json_size (j : json) : nat :=
  match j with
  | JString _ => 1
  | JArray items => S (list_sum (map (fun x => S (json_size x)) items))
  | JObject members => S (list_sum (map (fun kv => S (json_size (snd kv))) members))
  end.


(** ** pandas and SQL helpers *)

(** [SELECT * FROM data WHERE species IS NULL]. *)
Definition unlabeled (r : Sqlite.row) : bool :=
  match Sqlite.species r with
  | None => true
  | Some _ => false
  end.

Definition select_unlabeled (data : list Sqlite.row) : list Sqlite.row :=
  List.filter unlabeled data.

(** [UPDATE data SET species = ? WHERE uuid = ?]: every row carrying that
    uuid gets the label, all other columns stay. *)
Definition set_species (label : string) (r : Sqlite.row) : Sqlite.row :=
  Sqlite.Row (Sqlite.uuid r) (Sqlite.prediction r) (Some label) (Sqlite.features r).

Definition update_species (label uuid : string) (data : list Sqlite.row)
  : list Sqlite.row :=
  map (fun r => if String.eqb (Sqlite.uuid r) uuid then set_species label r else r) data.

(** Insertion of a key into a strictly increasing list of keys. *)
Fixpoint insert_key (k : string) (keys : list string) : list string :=
  match keys with
  | [] => [k]
  | k' :: rest =>
      match String.compare k k' with
      | Lt => k :: keys
      | Eq => keys
      | Gt => k' :: insert_key k rest
      end
  end.

Definition sorted_keys (keys : list string) : list string :=
  fold_right insert_key [] keys.

(** [data.groupby("event_id")]: one group per distinct event id, groups in
    increasing order of the id, rows of a group in their order in [data]. *)
Definition groupby_event_id (data : list S3.row) : list (string * list S3.row) :=
  map (fun k => (k, List.filter (fun r => String.eqb (S3.event_id r) k) data))
      (sorted_keys (map S3.event_id data)).

(** ** The flow *)

Section Flow.

Context {G : Type} `{RandomGen G}.

(** [sagemaker.load_unlabeled_data(s3_client, datastore_uri, ground_truth_uri)]
    lives in another module of the pipeline; here it is any function of the
    stored objects and the two locations that returns a data frame or
    raises. *)
Variable load_unlabeled_data :
  gmap (string * string) string -> string -> string -> result (list S3.row).

Record world : Type := World {
  gen : G;
  files : gmap string (list Sqlite.row);
  objects : gmap (string * string) string;
  utcnow : datetime;
  conn : option connection;
  trace : list event
}.

Definition set_gen (g : G) (w : world) : world :=
  World g (files w) (objects w) (utcnow w) (conn w) (trace w).
Definition set_files (f : gmap string (list Sqlite.row)) (w : world) : world :=
  World (gen w) f (objects w) (utcnow w) (conn w) (trace w).
Definition set_objects (o : gmap (string * string) string) (w : world) : world :=
  World (gen w) (files w) o (utcnow w) (conn w) (trace w).
Definition set_conn (c : option connection) (w : world) : world :=
  World (gen w) (files w) (objects w) (utcnow w) c (trace w).
Definition emit (e : event) (w : world) : world :=
  World (gen w) (files w) (objects w) (utcnow w) (conn w) (trace w ++ [e]).

(** State and exceptions: a computation returns a value or raises, and in
    both cases leaves the world it reached. *)
Definition M (A : Type) : Type := world -> result A * world.

Definition ret {A} (a : A) : M A := fun w => (Ok a, w).
Definition raise {A} (e : exn) : M A := fun w => (Raise e, w).
Definition bind {A B} (m : M A) (k : A -> M B) : M B :=
  fun w =>
    match m w with
    | (Ok a, w') => k a w'
    | (Raise e, w') => (Raise e, w')
    end.

Notation "x <-- m ;; k" := (bind m (fun x => k))
  (at level 100, m at next level, right associativity).
Notation "m ;;; k" := (bind m (fun _ => k))
  (at level 100, right associativity).

Definition modify (f : world -> world) : M unit := fun w => (Ok tt, f w).
Definition call (e : event) : M unit := modify (emit e).

(** [for x in xs: body(x)], collecting the values of the body. *)
Fixpoint for_each {A B} (xs : list A) (body : A -> M B) : M (list B) :=
  match xs with
  | [] => ret []
  | x :: xs' => y <-- body x ;; ys <-- for_each xs' body ;; ret (y :: ys)
  end.

(** *** random *)

Definition py_random : M Q :=
  fun w => let (u, g) := random (gen w) in (Ok u, set_gen g w).

Definition py_choice {A} (seq : list A) : M A :=
  match seq with
  | [] => raise IndexError
  | _ :: _ =>
      fun w =>
        let (i, g) := randbelow (length seq) (gen w) in
        match seq !! i with
        | Some x => (Ok x, set_gen g w)
        | None => (Raise IndexError, set_gen g w)
        end
  end.

(** *** _get_label *)

Definition _get_label (self : Labeling) (prediction : string) : M string :=
  u <-- py_random ;;
  if float_lt (Finite u) (ground_truth_quality self)
  then ret prediction
  else py_choice LABELS.

(** *** sqlite3 *)

(** [sqlite3.connect(path)]: the file named [path], taken literally, is
    opened.  With no database behind that path the adapter fails, at the
    connect or at the query that follows for want of the table; the two
    failures are not told apart here and both are [DatabaseError]. *)
Definition sqlite3_connect (path : string) : M unit :=
  call (SqlConnect path) ;;;
  fun w =>
    match files w !! path with
    | Some data => (Ok tt, set_conn (Some (Connection path data false)) w)
    | None => (Raise DatabaseError, w)
    end.

(** A method of the connection object; it raises once the connection is
    closed. *)
Definition on_connection {A} (f : connection -> world -> A * world) : M A :=
  fun w =>
    match conn w with
    | Some c =>
        if conn_closed c then (Raise DatabaseError, w)
        else let (a, w') := f c w in (Ok a, w')
    | None => (Raise DatabaseError, w)
    end.

Definition read_sql_query_unlabeled : M (list Sqlite.row) :=
  call SqlSelectUnlabeled ;;;
  on_connection (fun c w => (select_unlabeled (conn_data c), w)).

Definition connection_execute_update (label uuid : string) : M unit :=
  call (SqlUpdate label uuid) ;;;
  on_connection (fun c w =>
    (tt, set_conn (Some (Connection (conn_path c)
                           (update_species label uuid (conn_data c)) false)) w)).

(** [commit()] makes the updates of the connection the content of the file. *)
Definition connection_commit : M unit :=
  call SqlCommit ;;;
  on_connection (fun c w =>
    (tt, set_files (<[conn_path c := conn_data c]> (files w)) w)).

Definition connection_close : M unit :=
  call SqlClose ;;;
  on_connection (fun c w =>
    (tt, set_conn (Some (Connection (conn_path c) (conn_data c) true)) w)).

Definition is_empty {A} (df : list A) : bool :=
  match df with
  | [] => true
  | _ :: _ => false
  end.

(** *** _label_sqlite_data *)

Definition _label_sqlite_data (self : Labeling) : M nat :=
  sqlite3_connect (datastore_uri self) ;;;
  df <-- read_sql_query_unlabeled ;;
  call (LogInfo (LoadedFromDatabase (length df))) ;;;
  if is_empty df then ret 0
  else
    for_each df (fun row =>
      let uuid := Sqlite.uuid row in
      label <-- _get_label self (Sqlite.prediction row) ;;
      connection_execute_update label uuid) ;;;
    connection_commit ;;;
    connection_close ;;;
    ret (length df).

(** The body of the loop of [_label_sqlite_data]. *)
Definition sqlite_body (self : Labeling) (row : Sqlite.row) : M unit :=
  bind (_get_label self (Sqlite.prediction row))
       (fun label => connection_execute_update label (Sqlite.uuid row)).

(** *** _label_sagemaker_data *)

(** The dict literal of the loop body. *)
Definition ground_truth_record (predictions : list string) (event_id : string) : json :=
  JObject
    [ ("groundTruthData",
       JObject [ ("data", JArray (map JString predictions));
                 ("encoding", JString "CSV") ]);
      ("eventMetadata", JObject [ ("eventId", JString event_id) ]);
      ("eventVersion", JString "0") ].

(** [seq[i]]. *)
Definition index {A} (seq : list A) (i : nat) : M A :=
  match seq !! i with
  | Some x => ret x
  | None => raise IndexError
  end.

Definition datetime_now : M datetime := fun w => (Ok (utcnow w), w).

Definition s3_put_object (body bucket key : string) : M unit :=
  call (S3PutObject bucket key body) ;;;
  modify (fun w => set_objects (<[(bucket, key) := body]> (objects w)) w).

Definition call_load_unlabeled_data (datastore ground_truth : string)
  : M (list S3.row) :=
  call (S3Load datastore ground_truth) ;;;
  fun w => (load_unlabeled_data (objects w) datastore ground_truth, w).

(** The loop over [data.groupby("event_id")]: one serialized record per
    event. *)
Definition label_events (self : Labeling) (data : list S3.row) : M (list string) :=
  for_each (groupby_event_id data) (fun eg =>
    predictions <-- for_each (snd eg) (fun row =>
                      _get_label self (S3.prediction row)) ;;
    ret (dumps (ground_truth_record predictions (fst eg)))).

Definition lines (records : list string) : string :=
  join (String newline EmptyString) records.

Definition object_key (ground_truth : string) (upload_time : datetime) : string :=
  join "/" (drop 3 (split "/" ground_truth))
  ++ strftime upload_time ++ ".jsonl".

Definition required_message : string :=
  "The 'ground-truth-uri' parameter is required.".

Definition _label_sagemaker_data (self : Labeling) : M nat :=
  match ground_truth_uri self with
  | None | Some EmptyString => raise (RuntimeError required_message)
  | Some ground_truth =>
      call S3Client ;;;
      data <-- call_load_unlabeled_data (datastore_uri self) ground_truth ;;
      call (LogInfo (LoadedFromS3 (length data))) ;;;
      if is_empty data then ret 0
      else
        records <-- label_events self data ;;
        let ground_truth_payload := lines records in
        upload_time <-- datetime_now ;;
        let uri := object_key ground_truth upload_time in
        bucket <-- index (split "/" ground_truth) 2 ;;
        s3_put_object ground_truth_payload bucket uri ;;;
        ret (length data)
  end.

(** *** start and end *)

Definition invalid_datastore_message : string :=
  "Invalid datastore location. Must be an S3 location in the "
  ++ "format 's3://bucket/prefix' or a SQLite database file in the format "
  ++ "'sqlite://path/to/database.db'".

Definition start (self : Labeling) : M nat :=
  if String.prefix "sqlite://" (datastore_uri self) then _label_sqlite_data self
  else if String.prefix "s3://" (datastore_uri self) then _label_sagemaker_data self
  else raise (ValueError invalid_datastore_message).

Definition end_ (labeled_samples : nat) : M unit :=
  call (LogInfo (LabeledSamples labeled_samples)).

Definition run (self : Labeling) : M nat :=
  labeled_samples <-- start self ;;
  end_ labeled_samples ;;;
  ret labeled_samples.

End Flow.

Arguments world G : clear implicits.

(** ** The tape generator is a random generator *)

#[export] Instance tape_gen : RandomGen (list Z).
Proof.
  refine {| random := tape_random; randbelow := tape_randbelow |}.
  - intros [|z t]; simpl.
    + unfold Qle, Qlt; simpl; lia.
    + pose proof (Z.mod_pos_bound z two53 eq_refl) as Hz.
      unfold Qle, Qlt; simpl. unfold two53 in *. lia.
  - intros n [|z t] Hn; simpl; [exact Hn|].
    pose proof (Z.mod_pos_bound z (Z.of_nat n)). lia.
Defined.

(** ** Vocabulary of the statements *)

Definition label_of (prediction label : string) : Prop :=
  label = prediction \/ In label LABELS.

(** The table after a sequence of [UPDATE]s, given as (label, uuid) pairs. *)
Definition apply_updates (updates : list (string * string))
    (data : list Sqlite.row) : list Sqlite.row :=
  fold_left (fun d lu => update_species (fst lu) (snd lu) d) updates data.

Definition update_events (updates : list (string * string)) : list event :=
  map (fun lu => SqlUpdate (fst lu) (snd lu)) updates.

Definition row_update (lu : string * string) (r : Sqlite.row) : Sqlite.row :=
  if String.eqb (Sqlite.uuid r) (snd lu) then set_species (fst lu) r else r.

Definition row_after (updates : list (string * string)) (r : Sqlite.row)
  : Sqlite.row :=
  fold_left (fun r lu => row_update lu r) updates r.

(** What the adapter leaves of a row: an unlabeled row gets a label that is
    its prediction or one of the three species, and keeps every other
    column; a labeled row is left as it was. *)
Definition labeled_from (r r' : Sqlite.row) : Prop :=
  match Sqlite.species r with
  | None => exists l, label_of (Sqlite.prediction r) l /\ r' = set_species l r
  | Some _ => r' = r
  end.

Definition key_lt (a b : string) : Prop := String.compare a b = Lt.

Definition rows_of_event (k : string) (data : list S3.row) : list S3.row :=
  List.filter (fun r => String.eqb (S3.event_id r) k) data.

(** The labels of one event with its id, and the line it is serialized to. *)
Definition event_line (ev : string * list string) : string :=
  dumps (ground_truth_record (snd ev) (fst ev)).

Definition labels_of_group (eg : string * list S3.row) (ev : string * list string)
  : Prop :=
  fst ev = fst eg
  /\ Forall2 (fun r l => label_of (S3.prediction r) l) (snd eg) (snd ev).

(** What one line of the payload holds for its event: one label per row
    of the event; the text of the line, character for character, with the
    labels and the event id as JSON string literals; and the JSON object
    that reading the line back gives, with its four fields. *)
Definition event_record_ok (data : list S3.row) (ev : string * list string) : Prop :=
  Forall2 (fun r l => label_of (S3.prediction r) l)
          (rows_of_event (fst ev) data) (snd ev)
  /\ event_line ev
     = "{" ++ in_quotes "groundTruthData" ++ ": {" ++ in_quotes "data" ++ ": ["
       ++ join ", " (map quote (snd ev)) ++ "], " ++ in_quotes "encoding" ++ ": "
       ++ in_quotes "CSV" ++ "}, " ++ in_quotes "eventMetadata" ++ ": {"
       ++ in_quotes "eventId" ++ ": " ++ quote (fst ev) ++ "}, "
       ++ in_quotes "eventVersion" ++ ": " ++ in_quotes "0" ++ "}"
  /\ exists parsed,
       loads (event_line ev) = Some parsed
       /\ parsed = ground_truth_record (snd ev) (fst ev)
       /\ member_path ["groundTruthData"; "data"] parsed
          = Some (JArray (map JString (snd ev)))
       /\ member_path ["groundTruthData"; "encoding"] parsed = Some (JString "CSV")
       /\ member_path ["eventMetadata"; "eventId"] parsed = Some (JString (fst ev))
       /\ member_path ["eventVersion"] parsed = Some (JString "0").

(** ** Concrete inputs *)

Definition quality_default : pyfloat := Finite (4 # 5).

(** A tape whose first draw is kept ([0 < 0.8]) and whose second draw is
    not ([1 - 2^-53 >= 0.8]), so that the third word picks a label. *)
Definition tape0 : list Z := [0; 9007199254740991; 2; 0; 0; 0]%Z.

Definition noon : datetime := Datetime 2024 5 6 7 8 9.

Definition table0 : list Sqlite.row :=
  [ Sqlite.Row "u1" "Adelie" None [("island", "Biscoe")];
    Sqlite.Row "u2" "Gentoo" (Some "Gentoo") [];
    Sqlite.Row "u3" "Chinstrap" None [] ].

Definition table_labeled : list Sqlite.row :=
  [ Sqlite.Row "u2" "Gentoo" (Some "Gentoo") [] ].

Definition sqlite_flow : Labeling :=
  Flow "sqlite://penguins.db" None quality_default.

Definition sqlite_world (table : list Sqlite.row) : world (list Z) :=
  World tape0 {[ "sqlite://penguins.db" := table ]} ∅ noon None [].

Definition captured : list S3.row :=
  [ S3.Row "e2" "Gentoo" []; S3.Row "e1" "Adelie" []; S3.Row "e1" "Chinstrap" [] ].

Definition fixed_loader (rows : list S3.row)
  : gmap (string * string) string -> string -> string -> result (list S3.row) :=
  fun _ _ _ => Ok rows.

Definition s3_flow (gt : option string) : Labeling :=
  Flow "s3://bucket/datastore" gt quality_default.

Definition s3_world (o : gmap (string * string) string) : world (list Z) :=
  World tape0 ∅ o noon None [].

Definition ground_truth0 : string := "s3://bucket/ground-truth/".
Definition key0 : string := "ground-truth/2024/05/06/07/0809.jsonl".

Definition payload0 : string :=
  lines [ dumps (ground_truth_record ["Adelie"; "Gentoo"] "e1");
          dumps (ground_truth_record ["Gentoo"] "e2") ].

(** ** Vocabulary of the further properties *)

Definition is_sql_event (e : event) : bool :=
  match e with
  | SqlConnect _ | SqlSelectUnlabeled | SqlUpdate _ _ | SqlCommit | SqlClose => true
  | _ => false
  end.

Definition is_s3_event (e : event) : bool :=
  match e with
  | S3Client | S3Load _ _ | S3PutObject _ _ _ => true
  | _ => false
  end.

(** The characters [' '..'~']. *)
Definition printable (c : ascii) : bool :=
  ((32 <=? nat_of_ascii c) && (nat_of_ascii c <=? 126))%nat.

Fixpoint all_printable (s : string) : bool :=
  match s with
  | EmptyString => true
  | String c s' => printable c && all_printable s'
  end.

(** The values [datetime.now] can return, from year 1000 on, where [%Y] has
    four digits. *)
Definition valid_datetime (t : datetime) : bool :=
  ((1000 <=? year t) && (year t <? 10 * 1000)
   && (1 <=? month t) && (month t <=? 12)
   && (1 <=? day t) && (day t <=? 31)
   && (hour t <? 24) && (minute t <? 60) && (second t <? 60))%nat.

(** A loader that fails with [e]. *)
Definition failing_loader (e : exn)
  : gmap (string * string) string -> string -> string -> result (list S3.row) :=
  fun _ _ _ => Raise e.

Definition table_shared : list Sqlite.row :=
  [ Sqlite.Row "u1" "Adelie" (Some "Chinstrap") [];
    Sqlite.Row "u1" "Adelie" None [];
    Sqlite.Row "u2" "Gentoo" None [("island", "Dream")] ].


(** * Properties *)

(** ** The text helpers on examples *)

Example dumps_example :
  dumps (JObject [("a", JArray [JString "x"; JString "y"]); ("b", JString "0")])
  = String "{" (quote "a" ++ ": [" ++ quote "x" ++ ", " ++ quote "y" ++ "], "
      ++ quote "b" ++ ": " ++ quote "0" ++ "}").
Proof. reflexivity. Qed.

Example split_example :
  split "/" "s3://bucket/ground/truth" = ["s3:"; ""; "bucket"; "ground"; "truth"].
Proof. reflexivity. Qed.

Example strftime_example :
  strftime (Datetime 2024 5 6 7 8 9) = "2024/05/06/07/0809".
Proof. reflexivity. Qed.

Example dumps_record_text :
  dumps (ground_truth_record ["Adelie"; "Gentoo"] "e1")
  = "{" ++ in_quotes "groundTruthData" ++ ": {" ++ in_quotes "data" ++ ": ["
    ++ in_quotes "Adelie" ++ ", " ++ in_quotes "Gentoo" ++ "], "
    ++ in_quotes "encoding" ++ ": " ++ in_quotes "CSV" ++ "}, "
    ++ in_quotes "eventMetadata" ++ ": {" ++ in_quotes "eventId" ++ ": "
    ++ in_quotes "e1" ++ "}, " ++ in_quotes "eventVersion" ++ ": "
    ++ in_quotes "0" ++ "}".
Proof. reflexivity. Qed.

Example quote_escapes :
  quote (String "a" (String dquote (String newline (String (ascii_of_nat 233) ""))))
  = String dquote
      ("a" ++ String backslash (String dquote ("\n\u00e9" ++ String dquote ""))).
Proof. reflexivity. Qed.

Example loads_text :
  loads ("{" ++ in_quotes "a" ++ ": [" ++ in_quotes "x\u00e9\n" ++ ", []], "
         ++ in_quotes "b" ++ ": {}}")
  = Some (JObject [ ("a", JArray [ JString (String "x" (String (ascii_of_nat 233)
                                                         (String newline "")));
                                   JArray [] ]);
                    ("b", JObject []) ]).
Proof. reflexivity. Qed.

Example loads_refuses :
  loads "" = None
  /\ loads (in_quotes "a" ++ "x") = None
  /\ loads ("[" ++ in_quotes "a" ++ ",]") = None
  /\ loads ("{" ++ in_quotes "a" ++ ":" ++ in_quotes "b" ++ "}") = None
  /\ loads (String dquote "unterminated") = None.
Proof. repeat split; reflexivity. Qed.

Section FlowProperties.

Context {G : Type} `{RandomGen G}.
Variable load_unlabeled_data :
  gmap (string * string) string -> string -> string -> result (list S3.row).

Lemma float_lt_below_one (u : Q) (q : pyfloat) :
  (u < 1)%Q -> float_le (Finite 1) q = true -> float_lt (Finite u) q = true.
Proof.
  intros Hu Hq. destruct q as [b| | |]; simpl in *; try discriminate; auto.
  apply Qle_bool_iff in Hq. unfold Qltb.
  destruct (Qle_bool b u) eqn:E; [|reflexivity].
  apply Qle_bool_iff in E. exfalso.
  apply (Qlt_irrefl u). eapply Qlt_le_trans; [exact Hu|].
  eapply Qle_trans; eassumption.
Qed.

Lemma float_lt_above_zero (u : Q) (q : pyfloat) :
  (0 <= u)%Q -> float_le q (Finite 0) = true -> float_lt (Finite u) q = false.
Proof.
  intros Hu Hq. destruct q as [b| | |]; simpl in *; try discriminate; auto.
  apply Qle_bool_iff in Hq. unfold Qltb.
  assert (Qle_bool b u = true) as ->; [|reflexivity].
  apply Qle_bool_iff. eapply Qle_trans; eassumption.
Qed.

Lemma labels_lookup (i : nat) :
  i < 3 -> LABELS !! i = Some (nth i LABELS "").
Proof.
  intros Hi. destruct i as [|[|[|i]]]; try reflexivity. lia.
Qed.

Lemma labels_nth_in (i : nat) : i < 3 -> In (nth i LABELS "") LABELS.
Proof.
  intros Hi. destruct i as [|[|[|i]]]; simpl; auto. lia.
Qed.

Lemma py_choice_labels (w : world G) :
  py_choice LABELS w =
    (Ok (nth (fst (randbelow 3 (gen w))) LABELS ""),
     set_gen (snd (randbelow 3 (gen w))) w).
Proof.
  pose proof (randbelow_range 3 (gen w) ltac:(lia)) as Hi.
  unfold py_choice, LABELS. cbn [length].
  destruct (randbelow 3 (gen w)) as [i g2]. cbn [fst snd] in *.
  destruct i as [|[|[|i]]]; try reflexivity. lia.
Qed.

(** The unfolding of [_get_label]: one draw of [random()], and a draw of
    [_randbelow(3)] only when the first one is not below the quality. *)
Lemma get_label_unfold (self : Labeling) (prediction : string) (w : world G) :
  _get_label self prediction w =
    if float_lt (Finite (fst (random (gen w)))) (ground_truth_quality self)
    then (Ok prediction, set_gen (snd (random (gen w))) w)
    else (Ok (nth (fst (randbelow 3 (snd (random (gen w))))) LABELS ""),
          set_gen (snd (randbelow 3 (snd (random (gen w))))) w).
Proof.
  unfold _get_label, bind, py_random.
  destruct (random (gen w)) as [u g1]. cbn [fst snd].
  destruct (float_lt (Finite u) (ground_truth_quality self)); [reflexivity|].
  rewrite py_choice_labels. reflexivity.
Qed.

(** Every label is the prediction or one of the three species, and only the
    generator of the world changes. *)
Lemma get_label_cases (self : Labeling) (prediction : string) (w : world G) :
  exists l g,
    _get_label self prediction w = (Ok l, set_gen g w)
    /\ (l = prediction \/ In l LABELS).
Proof.
  rewrite get_label_unfold.
  destruct (float_lt _ _).
  - eexists _, _. split; [reflexivity|]. now left.
  - eexists _, _. split; [reflexivity|]. right.
    apply labels_nth_in, randbelow_range. lia.
Qed.

(** C1. [_get_label] draws [u] in [[0,1)] and returns the prediction when
    [u < quality]; otherwise it returns the label at the index drawn below 3
    in the list of the three species, whose positions are in one-to-one
    correspondence with the three labels.  With quality 1.0 the result is
    always the prediction, with quality 0.0 always one of the three labels. *)
Theorem get_label_draw (self : Labeling) (prediction : string) (w : world G) :
  let u := fst (random (gen w)) in
  let g1 := snd (random (gen w)) in
  let i := fst (randbelow 3 g1) in
  let g2 := snd (randbelow 3 g1) in
  ((0 <= u)%Q /\ (u < 1)%Q /\ i < 3)
  /\ _get_label self prediction w =
       (if float_lt (Finite u) (ground_truth_quality self)
        then (Ok prediction, set_gen g1 w)
        else (Ok (nth i LABELS ""), set_gen g2 w))
  /\ (LABELS = ["Adelie"; "Chinstrap"; "Gentoo"] /\ List.NoDup LABELS
      /\ forall l, In l LABELS <-> exists j, j < 3 /\ nth j LABELS "" = l)
  /\ (forall ds gt,
        fst (_get_label (Flow ds gt (Finite 1)) prediction w) = Ok prediction)
  /\ (forall ds gt,
        fst (_get_label (Flow ds gt (Finite 0)) prediction w)
        = Ok (nth i LABELS "")
        /\ In (nth i LABELS "") LABELS).
Proof.
  intros u g1 i g2.
  destruct (random_range (gen w)) as [H0 H1].
  assert (Hi : i < 3) by (apply randbelow_range; lia).
  split; [auto|]. split; [apply get_label_unfold|]. split.
  - split; [reflexivity|]. split.
    + unfold LABELS. repeat constructor; simpl; intuition discriminate.
    + intros l. split.
      * simpl. intros [<-|[<-|[<-|[]]]]; [exists 0|exists 1|exists 2]; split; auto; lia.
      * intros (j & Hj & <-). now apply labels_nth_in.
  - split; intros ds gt.
    + rewrite get_label_unfold; cbn [ground_truth_quality].
      rewrite (float_lt_below_one _ (Finite 1) H1 eq_refl). reflexivity.
    + rewrite get_label_unfold; cbn [ground_truth_quality].
      rewrite (float_lt_above_zero _ (Finite 0) H0 eq_refl).
      split; [reflexivity|]. now apply labels_nth_in.
Qed.

(** C8. [_get_label] returns for every quality, finite or not, inside
    [[0,1]] or not; its result is the prediction or one of the three labels;
    a quality of at least 1.0 gives what 1.0 gives and a quality of at most
    0.0 gives what 0.0 gives. *)
Theorem get_label_any_quality
    (ds : string) (gt : option string) (q : pyfloat)
    (prediction : string) (w : world G) :
  (exists l w',
      _get_label (Flow ds gt q) prediction w = (Ok l, w')
      /\ (l = prediction \/ In l LABELS))
  /\ (float_le (Finite 1) q = true ->
      _get_label (Flow ds gt q) prediction w
      = _get_label (Flow ds gt (Finite 1)) prediction w
      /\ fst (_get_label (Flow ds gt q) prediction w) = Ok prediction)
  /\ (float_le q (Finite 0) = true ->
      _get_label (Flow ds gt q) prediction w
      = _get_label (Flow ds gt (Finite 0)) prediction w
      /\ exists l, fst (_get_label (Flow ds gt q) prediction w) = Ok l
                   /\ In l LABELS).
Proof.
  destruct (random_range (gen w)) as [H0 H1].
  split; [|split].
  - destruct (get_label_cases (Flow ds gt q) prediction w) as (l & g & E & Hl).
    eauto.
  - intros Hq. rewrite !get_label_unfold; cbn [ground_truth_quality].
    rewrite (float_lt_below_one _ q H1 Hq).
    rewrite (float_lt_below_one _ (Finite 1) H1 eq_refl). auto.
  - intros Hq. rewrite !get_label_unfold; cbn [ground_truth_quality].
    rewrite (float_lt_above_zero _ q H0 Hq).
    rewrite (float_lt_above_zero _ (Finite 0) H0 eq_refl).
    split; [reflexivity|]. eexists; split; [reflexivity|].
    apply labels_nth_in, randbelow_range. lia.
Qed.

(** ** The SQLite adapter *)

Lemma bind_ok {A B} (m : M A) (k : A -> M B) (w w' : world G) (a : A) :
  m w = (Ok a, w') -> bind m k w = k a w'.
Proof. intros E. unfold bind. now rewrite E. Qed.

Lemma bind_raise {A B} (m : M A) (k : A -> M B) (w w' : world G) (e : exn) :
  m w = (Raise e, w') -> bind m k w = (Raise e, w').
Proof. intros E. unfold bind. now rewrite E. Qed.

Lemma execute_update_open (label uuid : string) (g : G) f o t path d tr :
  (connection_execute_update label uuid : M unit)
    (World g f o t (Some (Connection path d false)) tr)
  = (Ok tt,
     World g f o t (Some (Connection path (update_species label uuid d) false))
       (tr ++ [SqlUpdate label uuid])).
Proof. reflexivity. Qed.

(** The loop of [_label_sqlite_data] on an open connection: one label and
    one [UPDATE] per row, in order; nothing is committed, nothing else of
    the world moves. *)
Lemma sqlite_loop (self : Labeling) (rows : list Sqlite.row) :
  forall g f o t path d tr,
  exists labels g',
    for_each rows (sqlite_body self)
      (World g f o t (Some (Connection path d false)) tr)
    = (Ok (map (fun _ => tt) rows),
       World g' f o t
         (Some (Connection path
                  (apply_updates (combine labels (map Sqlite.uuid rows)) d) false))
         (tr ++ update_events (combine labels (map Sqlite.uuid rows))))
    /\ Forall2 (fun r l => label_of (Sqlite.prediction r) l) rows labels.
Proof.
  induction rows as [|r rows IH]; intros g f o t path d tr.
  - exists [], g. split; [|constructor].
    cbn. now rewrite app_nil_r.
  - set (w := World g f o t (Some (Connection path d false)) tr).
    destruct (get_label_cases self (Sqlite.prediction r) w) as (l & g1 & E & Hl).
    destruct (IH g1 f o t path (update_species l (Sqlite.uuid r) d)
                 (tr ++ [SqlUpdate l (Sqlite.uuid r)])%list) as (ls & g' & E' & Hls).
    exists (l :: ls), g'. split; [|constructor; assumption].
    cbn [for_each].
    erewrite bind_ok; [|unfold sqlite_body; erewrite bind_ok; [|exact E];
                        apply execute_update_open].
    erewrite bind_ok; [|exact E'].
    cbn. now rewrite <- app_assoc.
Qed.

Lemma call_event (e : event) (g : G) f o t c tr :
  (call e : M unit) (World g f o t c tr) = (Ok tt, World g f o t c (tr ++ [e])).
Proof. reflexivity. Qed.

Lemma connect_found (path : string) (data : list Sqlite.row) (g : G) f o t c tr :
  f !! path = Some data ->
  (sqlite3_connect path : M unit) (World g f o t c tr)
  = (Ok tt, World g f o t (Some (Connection path data false)) (tr ++ [SqlConnect path])).
Proof.
  intros Hf. unfold sqlite3_connect. erewrite bind_ok; [|apply call_event].
  cbn. now rewrite Hf.
Qed.

Lemma connect_missing (path : string) (g : G) f o t c tr :
  f !! path = None ->
  (sqlite3_connect path : M unit) (World g f o t c tr)
  = (Raise DatabaseError, World g f o t c (tr ++ [SqlConnect path])).
Proof.
  intros Hf. unfold sqlite3_connect. erewrite bind_ok; [|apply call_event].
  cbn. now rewrite Hf.
Qed.

Lemma select_open (g : G) f o t path d tr :
  (read_sql_query_unlabeled : M _) (World g f o t (Some (Connection path d false)) tr)
  = (Ok (select_unlabeled d),
     World g f o t (Some (Connection path d false)) (tr ++ [SqlSelectUnlabeled])).
Proof. reflexivity. Qed.

Lemma commit_open (g : G) f o t path d tr :
  (connection_commit : M unit) (World g f o t (Some (Connection path d false)) tr)
  = (Ok tt,
     World g (<[path := d]> f) o t (Some (Connection path d false)) (tr ++ [SqlCommit])).
Proof. reflexivity. Qed.

Lemma close_open (g : G) f o t path d tr :
  (connection_close : M unit) (World g f o t (Some (Connection path d false)) tr)
  = (Ok tt,
     World g f o t (Some (Connection path d true)) (tr ++ [SqlClose])).
Proof. reflexivity. Qed.

(** The adapter when the file cannot be opened. *)
Lemma label_sqlite_missing (self : Labeling) (g : G) f o t c tr :
  f !! datastore_uri self = None ->
  _label_sqlite_data self (World g f o t c tr)
  = (Raise DatabaseError, World g f o t c (tr ++ [SqlConnect (datastore_uri self)])).
Proof.
  intros Hf. unfold _label_sqlite_data.
  erewrite bind_raise; [reflexivity|]. now apply connect_missing.
Qed.

(** The adapter when no row is unlabeled. *)
Lemma label_sqlite_empty (self : Labeling) (data : list Sqlite.row)
    (g : G) f o t c tr :
  f !! datastore_uri self = Some data ->
  select_unlabeled data = [] ->
  _label_sqlite_data self (World g f o t c tr)
  = (Ok 0,
     World g f o t (Some (Connection (datastore_uri self) data false))
       (tr ++ [SqlConnect (datastore_uri self); SqlSelectUnlabeled;
               LogInfo (LoadedFromDatabase 0)])).
Proof.
  intros Hf Hdf. unfold _label_sqlite_data.
  erewrite bind_ok; [|apply connect_found; eassumption].
  erewrite bind_ok; [|apply select_open].
  rewrite Hdf.
  erewrite bind_ok; [|apply call_event].
  cbn. now rewrite <- !app_assoc.
Qed.

(** The adapter when some rows are unlabeled. *)
Lemma label_sqlite_nonempty (self : Labeling) (data : list Sqlite.row)
    (g : G) f o t c tr :
  f !! datastore_uri self = Some data ->
  select_unlabeled data <> [] ->
  exists labels g',
    let df := select_unlabeled data in
    let updates := combine labels (map Sqlite.uuid df) in
    _label_sqlite_data self (World g f o t c tr)
    = (Ok (length df),
       World g' (<[datastore_uri self := apply_updates updates data]> f) o t
         (Some (Connection (datastore_uri self) (apply_updates updates data) true))
         (tr ++ [SqlConnect (datastore_uri self); SqlSelectUnlabeled;
                 LogInfo (LoadedFromDatabase (length df))]
             ++ update_events updates ++ [SqlCommit; SqlClose]))
    /\ Forall2 (fun r l => label_of (Sqlite.prediction r) l) df labels.
Proof.
  intros Hf Hdf.
  destruct (sqlite_loop self (select_unlabeled data) g f o t (datastore_uri self) data
              (tr ++ [SqlConnect (datastore_uri self); SqlSelectUnlabeled;
                      LogInfo (LoadedFromDatabase (length (select_unlabeled data)))])%list)
    as (labels & g' & E & Hl).
  exists labels, g'. split; [|exact Hl].
  unfold _label_sqlite_data.
  erewrite bind_ok; [|apply connect_found; eassumption].
  erewrite bind_ok; [|apply select_open].
  erewrite bind_ok; [|apply call_event].
  destruct (select_unlabeled data) as [|r df] eqn:Edf; [congruence|].
  cbn [is_empty].
  erewrite bind_ok; [|rewrite <- !app_assoc; exact E].
  erewrite bind_ok; [|apply commit_open].
  erewrite bind_ok; [|apply close_open].
  cbn. now rewrite <- !app_assoc.
Qed.

(** *** The table after the updates *)

Lemma apply_updates_rows (updates : list (string * string)) :
  forall data, apply_updates updates data = map (row_after updates) data.
Proof.
  induction updates as [|lu updates IH]; intros data.
  - cbn. now rewrite map_id.
  - cbn [apply_updates fold_left]. fold (apply_updates updates).
    rewrite IH. unfold update_species. rewrite map_map. reflexivity.
Qed.

Lemma row_after_cons lu updates r :
  row_after (lu :: updates) r = row_after updates (row_update lu r).
Proof. reflexivity. Qed.

Lemma row_update_hit l r : row_update (l, Sqlite.uuid r) r = set_species l r.
Proof. unfold row_update. cbn [fst snd]. now rewrite String.eqb_refl. Qed.

Lemma row_update_miss l u r : Sqlite.uuid r <> u -> row_update (l, u) r = r.
Proof.
  intros Hne. unfold row_update. cbn [fst snd].
  apply String.eqb_neq in Hne. now rewrite Hne.
Qed.

Lemma row_update_uuid lu r : Sqlite.uuid (row_update lu r) = Sqlite.uuid r.
Proof. unfold row_update. now destruct (String.eqb _ _). Qed.

Lemma row_after_miss (updates : list (string * string)) :
  forall r, ~ In (Sqlite.uuid r) (map snd updates) -> row_after updates r = r.
Proof.
  induction updates as [|lu updates IH]; intros r Hr; [reflexivity|].
  rewrite row_after_cons. cbn [map] in Hr. destruct lu as [l u].
  rewrite row_update_miss; [|intros E; apply Hr; now left].
  apply IH. intros Hin. apply Hr. now right.
Qed.

Lemma map_snd_combine {A B} (xs : list A) :
  forall ys : list B, length xs = length ys -> map snd (combine xs ys) = ys.
Proof.
  induction xs as [|x xs IH]; intros [|y ys] Hlen; try discriminate; [reflexivity|].
  cbn. f_equal. apply IH. now injection Hlen.
Qed.

Lemma in_snd_combine {A B} (xs : list A) (ys : list B) (y : B) :
  In y (map snd (combine xs ys)) -> In y ys.
Proof.
  intros Hin. apply in_map_iff in Hin as ([x y'] & <- & Hin).
  eapply in_combine_r; eassumption.
Qed.

(** With distinct uuids, a row of the data frame ends with the label drawn
    for it. *)
Lemma row_after_hit (df : list Sqlite.row) (labels : list string) :
  Forall2 (fun r l => label_of (Sqlite.prediction r) l) df labels ->
  List.NoDup (map Sqlite.uuid df) ->
  forall r, In r df ->
    exists l, label_of (Sqlite.prediction r) l
              /\ row_after (combine labels (map Sqlite.uuid df)) r = set_species l r.
Proof.
  induction 1 as [|r0 l0 df labels Hl0 Hrest IH]; intros Hnd r Hin; [destruct Hin|].
  cbn [map] in Hnd. inversion Hnd as [|? ? Hnotin Hnd']; subst.
  cbn [map combine]. rewrite row_after_cons.
  destruct Hin as [->|Hin].
  - exists l0. split; [exact Hl0|].
    rewrite row_update_hit.
    apply row_after_miss. intros Hin. apply Hnotin.
    eapply in_snd_combine. exact Hin.
  - assert (Sqlite.uuid r <> Sqlite.uuid r0) as Hne.
    { intros E. apply Hnotin. rewrite <- E. now apply in_map. }
    rewrite row_update_miss by exact Hne. now apply IH.
Qed.

Lemma nodup_map_inj {A B} (f : A -> B) (l : list A) :
  List.NoDup (map f l) -> forall x y, In x l -> In y l -> f x = f y -> x = y.
Proof.
  induction l as [|a l IH]; intros Hnd x y Hx Hy E; [destruct Hx|].
  cbn [map] in Hnd. inversion Hnd as [|? ? Hnotin Hnd']; subst.
  destruct Hx as [->|Hx], Hy as [->|Hy]; auto.
  - exfalso. apply Hnotin. rewrite E. now apply in_map.
  - exfalso. apply Hnotin. rewrite <- E. now apply in_map.
Qed.

Lemma nodup_map_filter {A B} (f : A -> B) (p : A -> bool) (l : list A) :
  List.NoDup (map f l) -> List.NoDup (map f (List.filter p l)).
Proof.
  induction l as [|a l IH]; intros Hnd; [constructor|].
  cbn [map] in Hnd. inversion Hnd as [|? ? Hnotin Hnd']; subst.
  cbn [List.filter]. destruct (p a); [|now apply IH].
  cbn [map]. constructor; [|now apply IH].
  intros Hin. apply Hnotin. apply in_map_iff in Hin as (x & <- & Hx).
  apply in_map. apply filter_In in Hx. tauto.
Qed.

Lemma updates_label_exactly_unlabeled (data : list Sqlite.row) (labels : list string) :
  List.NoDup (map Sqlite.uuid data) ->
  Forall2 (fun r l => label_of (Sqlite.prediction r) l) (select_unlabeled data) labels ->
  Forall2 labeled_from data
    (apply_updates (combine labels (map Sqlite.uuid (select_unlabeled data))) data).
Proof.
  intros Hnd Hl. rewrite apply_updates_rows.
  assert (forall r, In r data ->
            labeled_from r
              (row_after (combine labels (map Sqlite.uuid (select_unlabeled data))) r))
    as Hrows.
  { intros r Hr. unfold labeled_from. destruct (Sqlite.species r) as [s|] eqn:Es.
    - apply row_after_miss. intros Hin. apply in_snd_combine in Hin.
      apply in_map_iff in Hin as (r' & E & Hr').
      apply filter_In in Hr' as [Hr' Hu].
      assert (r' = r) as -> by (eapply nodup_map_inj; eauto).
      unfold unlabeled in Hu. rewrite Es in Hu. discriminate.
    - apply (row_after_hit _ _ Hl).
      + now apply nodup_map_filter.
      + apply filter_In. split; [exact Hr|]. unfold unlabeled. now rewrite Es. }
  clear Hl Hnd. revert Hrows.
  generalize (row_after (combine labels (map Sqlite.uuid (select_unlabeled data)))).
  intros f. induction data as [|r data IH]; intros Hrows; [constructor|].
  cbn [map]. constructor.
  - apply Hrows. now left.
  - apply IH. intros r' Hr'. apply Hrows. now right.
Qed.

Lemma select_unlabeled_spec (data : list Sqlite.row) (r : Sqlite.row) :
  In r (select_unlabeled data) <-> In r data /\ Sqlite.species r = None.
Proof.
  unfold select_unlabeled. rewrite filter_In. unfold unlabeled.
  destruct (Sqlite.species r); intuition discriminate.
Qed.

Lemma labeled_from_refl (data : list Sqlite.row) :
  select_unlabeled data = [] -> Forall2 labeled_from data data.
Proof.
  intros Hdf. apply Forall_Forall2_diag. apply List.Forall_forall. intros r Hr.
  unfold labeled_from. destruct (Sqlite.species r) eqn:Es; [reflexivity|].
  exfalso. assert (In r (select_unlabeled data)) as Hin
    by (apply select_unlabeled_spec; auto).
  rewrite Hdf in Hin. destruct Hin.
Qed.

Lemma labeled_from_nonnull (data data' : list Sqlite.row) :
  Forall2 labeled_from data data' ->
  forall r', In r' data' -> Sqlite.species r' <> None.
Proof.
  induction 1 as [|r r1 l l' Hr HF IH]; intros r' Hin; [destruct Hin|].
  destruct Hin as [<-|Hin]; [|now apply IH].
  unfold labeled_from in Hr. destruct (Sqlite.species r) eqn:Es.
  - subst r1. now rewrite Es.
  - destruct Hr as (lbl & _ & ->). discriminate.
Qed.

(** C2. On a database whose table holds [data], with the uuid column
    identifying rows, the SQLite adapter loads exactly the rows whose
    [species] is NULL (it logs and returns their number [N]); when it is
    done, the committed table has the same rows in the same places, every
    row that was unlabeled carries a label (its prediction or one of the
    three species) and every row that was labeled is unchanged; no other
    file is touched. *)
Theorem sqlite_labels_exactly_the_unlabeled
    (self : Labeling) (w : world G) (data : list Sqlite.row) :
  files w !! datastore_uri self = Some data ->
  List.NoDup (map Sqlite.uuid data) ->
  let df := select_unlabeled data in
  (forall r, In r df <-> In r data /\ Sqlite.species r = None)
  /\ length df + length (List.filter (fun r => negb (unlabeled r)) data) = length data
  /\ exists data' w' rest,
       _label_sqlite_data self w = (Ok (length df), w')
       /\ trace w' = (trace w ++ [SqlConnect (datastore_uri self); SqlSelectUnlabeled;
                                 LogInfo (LoadedFromDatabase (length df))] ++ rest)%list
       /\ files w' !! datastore_uri self = Some data'
       /\ Forall2 labeled_from data data'
       /\ (forall r', In r' data' -> Sqlite.species r' <> None)
       /\ (forall path, path <> datastore_uri self ->
             files w' !! path = files w !! path).
Proof.
  intros Hf Hnd df.
  split; [apply select_unlabeled_spec|].
  split; [apply filter_length|].
  pose proof (labeled_from_nonnull data) as Hnonnull.
  destruct w as [g f o t c tr]. cbn [files trace] in *.
  destruct (select_unlabeled data) as [|r0 df0] eqn:Edf.
  - exists data. eexists. exists [].
    split; [subst df; apply label_sqlite_empty; eassumption|].
    cbn [files trace]. split; [reflexivity|]. split; [exact Hf|].
    split; [now apply labeled_from_refl|].
    split; [apply Hnonnull; now apply labeled_from_refl|reflexivity].
  - destruct (label_sqlite_nonempty self data g f o t c tr Hf) as (labels & g' & E & Hl);
      [congruence|].
    cbn zeta in E. rewrite Edf in E, Hl. fold df in E.
    pose proof (updates_label_exactly_unlabeled data labels Hnd) as HF.
    rewrite Edf in HF. specialize (HF Hl).
    eexists. eexists. eexists.
    split; [exact E|]. cbn [files trace].
    split; [reflexivity|]. split; [apply lookup_insert_eq|].
    split; [exact HF|]. split; [apply Hnonnull; exact HF|].
    intros path Hp. now apply lookup_insert_ne.
Qed.

(** On a non-empty data frame the adapter issues its updates, then one
    [commit()], then [close()], and leaves the connection closed. *)
Lemma sqlite_commits_then_closes (self : Labeling) (w : world G)
    (data : list Sqlite.row) :
  files w !! datastore_uri self = Some data ->
  select_unlabeled data <> [] ->
  exists updates w' c,
    _label_sqlite_data self w = (Ok (length (select_unlabeled data)), w')
    /\ map snd updates = map Sqlite.uuid (select_unlabeled data)
    /\ trace w' = (trace w ++ [SqlConnect (datastore_uri self); SqlSelectUnlabeled;
                              LogInfo (LoadedFromDatabase (length (select_unlabeled data)))]
                     ++ update_events updates ++ [SqlCommit; SqlClose])%list
    /\ conn w' = Some c /\ conn_closed c = true
    /\ files w' !! datastore_uri self = Some (conn_data c).
Proof.
  intros Hf Hne. destruct w as [g f o t c tr]. cbn [files trace] in *.
  destruct (label_sqlite_nonempty self data g f o t c tr Hf Hne)
    as (labels & g' & E & Hl).
  cbn zeta in E.
  exists (combine labels (map Sqlite.uuid (select_unlabeled data))).
  eexists. eexists.
  split; [exact E|]. cbn [files trace conn conn_closed conn_data].
  split.
  { apply map_snd_combine. rewrite length_map. symmetry.
    eapply Forall2_length; eassumption. }
  split; [reflexivity|]. split; [reflexivity|]. split; [reflexivity|].
  apply lookup_insert_eq.
Qed.

(** When no row is unlabeled the adapter returns 0 right after the query:
    it has written nothing, and it has called neither [commit()] nor
    [close()], so the connection it opened is still open on return. *)
Lemma sqlite_empty_returns_early (self : Labeling) (w : world G)
    (data : list Sqlite.row) :
  files w !! datastore_uri self = Some data ->
  select_unlabeled data = [] ->
  exists w',
    _label_sqlite_data self w = (Ok 0, w')
    /\ trace w' = (trace w ++ [SqlConnect (datastore_uri self); SqlSelectUnlabeled;
                              LogInfo (LoadedFromDatabase 0)])%list
    /\ conn w' = Some (Connection (datastore_uri self) data false)
    /\ files w' = files w.
Proof.
  intros Hf Hdf. destruct w as [g f o t c tr]. cbn [files trace] in *.
  eexists. split; [apply label_sqlite_empty; eassumption|].
  cbn. auto.
Qed.

(** ** Dispatch and configuration errors *)

Lemma prefix_append (p s : string) :
  String.prefix p s = true <-> exists rest, s = p ++ rest.
Proof.
  revert s. induction p as [|a p IH]; intros s.
  - split; [intros _; exists s; reflexivity|]. intros _. now destruct s.
  - destruct s as [|b s]; cbn.
    + split; [discriminate|]. intros (rest & E). discriminate.
    + destruct (ascii_dec a b) as [->|Hne].
      * rewrite IH. split; intros (rest & E); exists rest; [now rewrite E|].
        now injection E.
      * split; [discriminate|]. intros (rest & E). injection E. congruence.
Qed.

Lemma append_length (a b : string) :
  String.length (a ++ b) = String.length a + String.length b.
Proof.
  induction a as [|c a IH]; [reflexivity|].
  change (String c a ++ b) with (String c (a ++ b)).
  cbn [String.length]. now rewrite IH.
Qed.

Lemma sqlite_scheme_not_path (p : string) : p <> "sqlite://" ++ p.
Proof.
  intros E. apply (f_equal String.length) in E.
  rewrite append_length in E. cbn in E. lia.
Qed.

(** C6. A datastore URI that starts with neither [sqlite://] nor [s3://]
    makes [start] (and so the run) raise the [ValueError] whose message
    names both schemes; the world is returned as it was received: nothing
    was opened, read, written or logged. *)
Theorem start_rejects_unknown_scheme (self : Labeling) (w : world G) :
  String.prefix "sqlite://" (datastore_uri self) = false ->
  String.prefix "s3://" (datastore_uri self) = false ->
  start load_unlabeled_data self w
    = (Raise (ValueError invalid_datastore_message), w)
  /\ run load_unlabeled_data self w
    = (Raise (ValueError invalid_datastore_message), w)
  /\ contains "sqlite://" invalid_datastore_message = true
  /\ contains "s3://" invalid_datastore_message = true.
Proof.
  intros Hsqlite Hs3.
  assert (start load_unlabeled_data self w
          = (Raise (ValueError invalid_datastore_message), w)) as E.
  { unfold start. rewrite Hsqlite, Hs3. reflexivity. }
  split; [exact E|]. split; [|split; reflexivity].
  unfold run. erewrite bind_raise; [reflexivity|exact E].
Qed.

(** C5. Without a ground-truth location (the parameter missing or empty)
    the SageMaker adapter raises the [RuntimeError] of the required
    parameter and returns the world as it received it: no client was
    created, nothing was loaded, put or logged.  The same holds for [start]
    on an [s3://] datastore. *)
Theorem sagemaker_requires_ground_truth (self : Labeling) (w : world G) :
  ground_truth_uri self = None \/ ground_truth_uri self = Some "" ->
  _label_sagemaker_data load_unlabeled_data self w
    = (Raise (RuntimeError required_message), w)
  /\ (String.prefix "s3://" (datastore_uri self) = true ->
      start load_unlabeled_data self w
        = (Raise (RuntimeError required_message), w)).
Proof.
  intros Hgt.
  assert (_label_sagemaker_data load_unlabeled_data self w
          = (Raise (RuntimeError required_message), w)) as E.
  { unfold _label_sagemaker_data. destruct Hgt as [-> | ->]; reflexivity. }
  split; [exact E|]. intros Hs3.
  unfold start. rewrite Hs3.
  apply prefix_append in Hs3 as (rest & Hds).
  assert (String.prefix "sqlite://" (datastore_uri self) = false) as ->
    by (rewrite Hds; reflexivity).
  exact E.
Qed.

(** C9. For a datastore URI [sqlite://p] the first call of the run is
    [sqlite3.connect] on the whole URI, scheme included: the connection is
    on the file of that name, the run fails when no such file exists even if
    a database sits at [p], and the file at [p] is never changed. *)
Theorem sqlite_connects_to_literal_uri
    (p : string) (gt : option string) (q : pyfloat) (w : world G) :
  let uri := "sqlite://" ++ p in
  let self := Flow uri gt q in
  exists r w' rest,
    start load_unlabeled_data self w = (r, w')
    /\ trace w' = (trace w ++ SqlConnect uri :: rest)%list
    /\ ~ In (SqlConnect p) rest
    /\ match files w !! uri with
       | None => r = Raise DatabaseError /\ files w' = files w
       | Some data => exists c, conn w' = Some c /\ conn_path c = uri
       end
    /\ files w' !! p = files w !! p.
Proof.
  intros uri self.
  assert (start load_unlabeled_data self w = _label_sqlite_data self w) as ->.
  { unfold start.
    assert (String.prefix "sqlite://" (datastore_uri self) = true) as ->
      by (apply prefix_append; now exists p).
    reflexivity. }
  destruct w as [g f o t c tr]. cbn [files trace conn].
  change (datastore_uri self) with uri.
  assert (Hp : p <> uri) by apply sqlite_scheme_not_path.
  destruct (f !! uri) as [data|] eqn:Hf.
  - destruct (select_unlabeled data) as [|r0 df0] eqn:Edf.
    + eexists. eexists. eexists.
      split; [apply (label_sqlite_empty self data); eassumption|].
      cbn [files trace conn]. split; [reflexivity|].
      split; [cbn; intuition discriminate|]. split; [eauto|reflexivity].
    + destruct (label_sqlite_nonempty self data g f o t c tr Hf)
        as (labels & g' & E & _); [congruence|].
      cbn zeta in E. eexists. eexists. eexists.
      split; [exact E|]. cbn [files trace conn].
      split; [reflexivity|]. split.
      * cbn [In app]. intros [?|[?|Hin]]; try discriminate.
        apply in_app_or in Hin as [Hin|Hin].
        -- unfold update_events in Hin. apply in_map_iff in Hin as (? & ? & _).
           discriminate.
        -- cbn in Hin. intuition discriminate.
      * split; [eauto|]. now apply lookup_insert_ne.
  - eexists. eexists. exists [].
    split; [apply label_sqlite_missing; exact Hf|].
    cbn [files trace conn]. split; [reflexivity|]. split; [intros []|auto].
Qed.

(** ** Text: splitting, joining, serializing *)

Lemma append_cons (c : ascii) (a b : string) :
  String c a ++ b = String c (a ++ b).
Proof. reflexivity. Qed.

Lemma append_nil_l (b : string) : "" ++ b = b.
Proof. reflexivity. Qed.

Lemma append_assoc (a b c : string) : (a ++ b) ++ c = a ++ (b ++ c).
Proof.
  induction a as [|x a IH]; [reflexivity|].
  rewrite !append_cons. now rewrite IH.
Qed.

Lemma occurs_append (c : ascii) (a b : string) :
  occurs c (a ++ b) = occurs c a || occurs c b.
Proof.
  induction a as [|x a IH]; [reflexivity|].
  rewrite append_cons. cbn [occurs]. rewrite IH. now rewrite orb_assoc.
Qed.

Lemma join_cons_cons (sep x y : string) (l : list string) :
  join sep (x :: y :: l) = x ++ sep ++ join sep (y :: l).
Proof. reflexivity. Qed.

Lemma occurs_join (c : ascii) (sep : string) (l : list string) :
  occurs c sep = false ->
  Forall (fun s => occurs c s = false) l ->
  occurs c (join sep l) = false.
Proof.
  intros Hsep. induction 1 as [|x l Hx Hl IH]; [reflexivity|].
  destruct l as [|y l]; [exact Hx|].
  rewrite join_cons_cons, !occurs_append, Hx, Hsep. exact IH.
Qed.

(** Splitting at a separator that the first part does not contain. *)
Lemma split_append (sep : ascii) (a b : string) :
  occurs sep a = false ->
  split sep (a ++ String sep b) = a :: split sep b.
Proof.
  induction a as [|x a IH]; intros Ha.
  - rewrite append_nil_l. cbn [split]. now rewrite Ascii.eqb_refl.
  - cbn [occurs] in Ha. apply orb_false_iff in Ha as [Hx Ha].
    rewrite append_cons. cbn [split]. rewrite Hx, (IH Ha). reflexivity.
Qed.

Lemma split_none (sep : ascii) (a : string) :
  occurs sep a = false -> split sep a = [a].
Proof.
  induction a as [|x a IH]; intros Ha; [reflexivity|].
  cbn [occurs] in Ha. apply orb_false_iff in Ha as [Hx Ha].
  cbn [split]. rewrite Hx, (IH Ha). reflexivity.
Qed.

(** Lines that hold no newline are recovered by splitting their join. *)
Lemma split_lines (records : list string) :
  records <> [] ->
  Forall (fun s => occurs newline s = false) records ->
  split newline (lines records) = records.
Proof.
  intros Hne HF. induction HF as [|x l Hx Hl IH]; [congruence|].
  destruct l as [|y l]; [now apply split_none|].
  unfold lines in *. rewrite join_cons_cons.
  change (String newline "" ++ join (String newline "") (y :: l))
    with (String newline (join (String newline "") (y :: l))).
  rewrite split_append by exact Hx. f_equal. apply IH. discriminate.
Qed.

Lemma escape_char_no_newline (c : ascii) : occurs newline (escape_char c) = false.
Proof.
  destruct c as [[] [] [] [] [] [] [] []]; reflexivity.
Qed.

Lemma quote_no_newline (s : string) : occurs newline (quote s) = false.
Proof.
  unfold quote. cbn [occurs]. rewrite occurs_append.
  assert (occurs newline (escape s) = false) as ->; [|reflexivity].
  induction s as [|c s IH]; [reflexivity|].
  cbn [escape]. now rewrite occurs_append, escape_char_no_newline.
Qed.

(** Induction on JSON values, through the lists they nest. *)
Lemma json_induction (P : json -> Prop)
    (HS : forall s, P (JString s))
    (HA : forall items, Forall P items -> P (JArray items))
    (HO : forall members, Forall (fun kv => P (snd kv)) members -> P (JObject members))
  : forall j, P j.
Proof.
  exact (fix go (j : json) : P j :=
    match j with
    | JString s => HS s
    | JArray items =>
        HA items
          ((fix all (l : list json) : Forall P l :=
              match l with
              | [] => @List.Forall_nil json P
              | x :: l' => @List.Forall_cons json P x l' (go x) (all l')
              end) items)
    | JObject members =>
        HO members
          ((fix all (l : list (string * json)) : Forall (fun kv => P (snd kv)) l :=
              match l with
              | [] => @List.Forall_nil _ (fun kv => P (snd kv))
              | kv :: l' => @List.Forall_cons _ (fun kv => P (snd kv)) kv l' (go (snd kv)) (all l')
              end) members)
    end).
Qed.

(** [json.dumps] never emits a raw newline: a serialized record is one line. *)
Lemma dumps_no_newline (j : json) : occurs newline (dumps j) = false.
Proof.
  induction j as [s|items IH|members IH] using json_induction.
  - apply quote_no_newline.
  - cbn [dumps]. rewrite !occurs_append.
    rewrite occurs_join; [reflexivity|reflexivity|].
    apply Forall_map. exact IH.
  - cbn [dumps]. rewrite !occurs_append.
    rewrite occurs_join; [reflexivity|reflexivity|].
    apply Forall_map. eapply List.Forall_impl; [|exact IH].
    intros [k v] Hv. cbn [fst snd] in *.
    now rewrite !occurs_append, quote_no_newline, Hv.
Qed.

(** *** Reading back what [dumps] wrote *)

Lemma read_escape_char (c : ascii) (tail : string) :
  read_string (escape_char c ++ tail) = push c (read_string tail).
Proof.
  destruct c as [[] [] [] [] [] [] [] []]; reflexivity.
Qed.

Lemma read_escape (s rest : string) :
  read_string (escape s ++ String dquote rest) = Some (s, rest).
Proof.
  induction s as [|c s IH]; [reflexivity|].
  cbn [escape]. rewrite append_assoc, read_escape_char, IH. reflexivity.
Qed.

Lemma quote_append (s rest : string) :
  quote s ++ rest = String dquote (escape s ++ String dquote rest).
Proof.
  unfold quote. rewrite append_cons, append_assoc. reflexivity.
Qed.

(** A serialized value starts with a quote, a bracket or a brace. *)
Lemma dumps_head (j : json) (rest : string) :
  exists c tail,
    dumps j ++ rest = String c tail
    /\ Ascii.eqb c "]" = false /\ Ascii.eqb c "}" = false.
Proof.
  destruct j as [s|items|members].
  - cbn [dumps]. rewrite quote_append. eexists _, _. split; [reflexivity|]. auto.
  - cbn [dumps]. eexists _, _. split; [reflexivity|]. auto.
  - cbn [dumps]. eexists _, _. split; [reflexivity|]. auto.
Qed.

Lemma list_sum_cons (a : nat) (l : list nat) : list_sum (a :: l) = a + list_sum l.
Proof. reflexivity. Qed.

(** Decides the comparisons of known characters met while reading. *)
Ltac eqb_step :=
  match goal with
  | |- context [Ascii.eqb ?a ?b] =>
      let v := eval vm_compute in (Ascii.eqb a b) in
      match v with
      | true => idtac
      | false => idtac
      end;
      change (Ascii.eqb a b) with v
  end.

Ltac read_on := repeat (cbv beta iota; eqb_step); cbn [andb]; cbv beta iota.

Lemma loads_items_dumps (items : list json) :
  Forall (fun j => forall fuel rest,
            json_size j <= fuel ->
            loads_value fuel (dumps j ++ rest) = Some (j, rest)) items ->
  items <> [] ->
  forall fuel rest,
    list_sum (map (fun x => S (json_size x)) items) <= fuel ->
    loads_items fuel (join ", " (map dumps items) ++ String "]" rest)
    = Some (items, rest).
Proof.
  induction 1 as [|x l Hx Hl IH]; intros Hne fuel rest Hfuel; [congruence|].
  cbn [map] in Hfuel. rewrite list_sum_cons in Hfuel.
  destruct fuel as [|fuel]; [lia|]. cbn [loads_items].
  destruct l as [|y l].
  - cbn [map]. change (join ", " [dumps x]) with (dumps x).
    rewrite Hx by lia. read_on. reflexivity.
  - cbn [map] in *. rewrite list_sum_cons in Hfuel.
    rewrite join_cons_cons, !append_assoc.
    rewrite Hx by lia.
    change (", " ++ join ", " (dumps y :: map dumps l) ++ String "]" rest)
      with (String "," (String " "
              (join ", " (dumps y :: map dumps l) ++ String "]" rest))).
    read_on.
    rewrite IH; [reflexivity|discriminate|rewrite list_sum_cons; lia].
Qed.

Lemma loads_members_dumps (members : list (string * json)) :
  Forall (fun kv => forall fuel rest,
            json_size (snd kv) <= fuel ->
            loads_value fuel (dumps (snd kv) ++ rest) = Some (snd kv, rest)) members ->
  members <> [] ->
  forall fuel rest,
    list_sum (map (fun kv => S (json_size (snd kv))) members) <= fuel ->
    loads_members fuel
      (join ", " (map (fun kv => quote (fst kv) ++ ": " ++ dumps (snd kv)) members)
       ++ String "}" rest)
    = Some (members, rest).
Proof.
  induction 1 as [|[k v] l Hx Hl IH]; intros Hne fuel rest Hfuel; [congruence|].
  cbn [map fst snd] in Hfuel, Hx. rewrite list_sum_cons in Hfuel.
  destruct fuel as [|fuel]; [lia|]. cbn [loads_members].
  destruct l as [|y l].
  - cbn [map fst snd].
    change (join ", " [quote k ++ ": " ++ dumps v]) with (quote k ++ ": " ++ dumps v).
    rewrite !append_assoc, quote_append. read_on.
    rewrite read_escape.
    change (": " ++ dumps v ++ String "}" rest)
      with (String ":" (String " " (dumps v ++ String "}" rest))).
    read_on. rewrite Hx by lia. read_on. reflexivity.
  - cbn [map fst snd] in *. rewrite list_sum_cons in Hfuel.
    rewrite join_cons_cons, !append_assoc, quote_append. read_on.
    rewrite read_escape.
    match goal with
    | |- context [": " ++ dumps v ++ ?t] =>
        change (": " ++ dumps v ++ t) with (String ":" (String " " (dumps v ++ t)))
    end.
    read_on. rewrite Hx by lia.
    match goal with
    | |- context [", " ++ ?t] =>
        change (", " ++ t) with (String "," (String " " t))
    end.
    read_on.
    rewrite IH; [reflexivity|discriminate|rewrite list_sum_cons; lia].
Qed.

(** With enough fuel, the reader gives back the value that was written and
    stops right after its text. *)
Lemma loads_value_dumps (j : json) :
  forall fuel rest,
    json_size j <= fuel -> loads_value fuel (dumps j ++ rest) = Some (j, rest).
Proof.
  induction j as [s|items IH|members IH] using json_induction;
    intros fuel rest Hfuel; cbn [json_size] in Hfuel;
    (destruct fuel as [|fuel]; [lia|]).
  - cbn [dumps]. rewrite quote_append. cbn [loads_value]. read_on.
    now rewrite read_escape.
  - cbn [dumps]. rewrite !append_assoc. rewrite append_cons, append_nil_l.
    cbn [loads_value]. read_on.
    destruct items as [|x items]; [reflexivity|].
    change ("]" ++ rest) with (String "]" rest).
    destruct (dumps_head x
                match items with
                | [] => String "]" rest
                | y :: l => ", " ++ join ", " (map dumps (y :: l)) ++ String "]" rest
                end) as (c & tail & E & Hc & _).
    assert (join ", " (map dumps (x :: items)) ++ String "]" rest = String c tail)
      as E'.
    { rewrite <- E. destruct items as [|y l]; [reflexivity|].
      cbn [map]. now rewrite join_cons_cons, append_assoc. }
    rewrite E'. cbv beta iota. rewrite Hc, <- E'.
    rewrite loads_items_dumps; [reflexivity|exact IH|discriminate|lia].
  - cbn [dumps]. rewrite !append_assoc. rewrite append_cons, append_nil_l.
    cbn [loads_value]. read_on.
    destruct members as [|[k v] members]; [reflexivity|].
    change ("}" ++ rest) with (String "}" rest).
    assert (exists tail,
              join ", " (map (fun kv => quote (fst kv) ++ ": " ++ dumps (snd kv))
                             ((k, v) :: members)) ++ String "}" rest
              = String dquote tail) as (tail & E).
    { cbn [map fst snd]. destruct members as [|y members].
      - cbn [map].
        change (join ", " [quote k ++ ": " ++ dumps v])
          with (quote k ++ ": " ++ dumps v).
        rewrite !append_assoc, quote_append. eauto.
      - cbn [map]. rewrite join_cons_cons, !append_assoc, quote_append. eauto. }
    rewrite E. read_on. rewrite <- E.
    rewrite loads_members_dumps; [reflexivity|exact IH|discriminate|lia].
Qed.

Lemma append_nil_r (a : string) : a ++ "" = a.
Proof. induction a as [|c a IH]; [reflexivity|]. now rewrite append_cons, IH. Qed.

Lemma items_fit (items : list json) :
  Forall (fun j => json_size j < String.length (dumps j)) items ->
  list_sum (map (fun x => S (json_size x)) items)
  <= String.length (join ", " (map dumps items)).
Proof.
  induction 1 as [|x l Hx Hl IH]; [reflexivity|].
  cbn [map]. rewrite list_sum_cons. destruct l as [|y l].
  - cbn [map list_sum fold_right]. change (join ", " [dumps x]) with (dumps x). lia.
  - cbn [map] in *. rewrite join_cons_cons, !append_length.
    change (String.length ", ") with 2. lia.
Qed.

Lemma members_fit (members : list (string * json)) :
  Forall (fun kv => json_size (snd kv) < String.length (dumps (snd kv))) members ->
  list_sum (map (fun kv => S (json_size (snd kv))) members)
  <= String.length
       (join ", " (map (fun kv => quote (fst kv) ++ ": " ++ dumps (snd kv)) members)).
Proof.
  induction 1 as [|[k v] l Hx Hl IH]; [reflexivity|].
  cbn [map fst snd] in *. rewrite list_sum_cons. destruct l as [|y l].
  - cbn [map list_sum fold_right].
    change (join ", " [quote k ++ ": " ++ dumps v]) with (quote k ++ ": " ++ dumps v).
    rewrite !append_length. lia.
  - cbn [map] in *. rewrite join_cons_cons, !append_length.
    change (String.length ", ") with 2. lia.
Qed.

Lemma dumps_fits (j : json) : json_size j < String.length (dumps j).
Proof.
  induction j as [s|items IH|members IH] using json_induction; cbn [json_size dumps].
  - unfold quote. cbn [String.length]. rewrite append_length.
    change (String.length (String dquote "")) with 1. lia.
  - rewrite !append_length. pose proof (items_fit items IH).
    change (String.length "[") with 1. change (String.length "]") with 1. lia.
  - rewrite !append_length. pose proof (members_fit members IH).
    change (String.length "{") with 1. change (String.length "}") with 1. lia.
Qed.

(** Reading back a serialized value gives the value: [json.loads] undoes
    [json.dumps]. *)
Lemma loads_dumps (j : json) : loads (dumps j) = Some j.
Proof.
  unfold loads. rewrite <- (append_nil_r (dumps j)) at 2.
  rewrite loads_value_dumps; [reflexivity|].
  pose proof (dumps_fits j). lia.
Qed.


(** ** Grouping by event id *)

Lemma key_lt_trans (a b c : string) : key_lt a b -> key_lt b c -> key_lt a c.
Proof.
  unfold key_lt. intros Hab Hbc.
  apply String_as_OT.cmp_lt. eapply String_as_OT.lt_trans;
    apply String_as_OT.cmp_lt; eassumption.
Qed.

Lemma key_lt_irrefl (a : string) : ~ key_lt a a.
Proof.
  unfold key_lt. intros Haa.
  assert (String.compare a a = Eq) as E by (now apply String_as_OT.cmp_eq).
  congruence.
Qed.

Lemma key_gt_lt (a b : string) : String.compare a b = Gt -> key_lt b a.
Proof.
  unfold key_lt. intros Hab. rewrite String.compare_antisym, Hab. reflexivity.
Qed.

Lemma insert_key_in (k x : string) (keys : list string) :
  In x (insert_key k keys) <-> x = k \/ In x keys.
Proof.
  induction keys as [|k' keys IH]; cbn [insert_key].
  - cbn. intuition.
  - destruct (String.compare k k') eqn:E.
    + apply String.compare_eq_iff in E as ->. cbn. intuition.
    + cbn. intuition.
    + cbn [In]. rewrite IH. intuition.
Qed.

Lemma insert_key_sorted (k : string) (keys : list string) :
  StronglySorted key_lt keys -> StronglySorted key_lt (insert_key k keys).
Proof.
  induction 1 as [|k' keys Hs IH Hall]; cbn [insert_key].
  - repeat constructor.
  - destruct (String.compare k k') eqn:E.
    + now constructor.
    + constructor; [now constructor|]. constructor; [exact E|].
      eapply List.Forall_impl; [|exact Hall]. intros x Hx.
      eapply key_lt_trans; [exact E|exact Hx].
    + constructor; [exact IH|]. apply List.Forall_forall. intros x Hx.
      apply insert_key_in in Hx as [->|Hx]; [now apply key_gt_lt|].
      rewrite List.Forall_forall in Hall. now apply Hall.
Qed.

Lemma sorted_keys_in (x : string) (keys : list string) :
  In x (sorted_keys keys) <-> In x keys.
Proof.
  induction keys as [|k keys IH]; [reflexivity|].
  cbn [sorted_keys fold_right]. fold (sorted_keys keys).
  rewrite insert_key_in, IH. cbn. intuition.
Qed.

Lemma sorted_keys_sorted (keys : list string) :
  StronglySorted key_lt (sorted_keys keys).
Proof.
  induction keys as [|k keys IH]; [constructor|].
  cbn [sorted_keys fold_right]. now apply insert_key_sorted.
Qed.

Lemma sorted_nodup (keys : list string) :
  StronglySorted key_lt keys -> List.NoDup keys.
Proof.
  induction 1 as [|k keys Hs IH Hall]; constructor; [|exact IH].
  intros Hin. rewrite List.Forall_forall in Hall.
  exact (key_lt_irrefl k (Hall k Hin)).
Qed.

(** The groups: one per event id that occurs in [data], each id once, in
    increasing order; a group holds the rows of its event, in their order in
    [data], and is never empty. *)
Lemma groupby_event_id_spec (data : list S3.row) :
  let groups := groupby_event_id data in
  StronglySorted key_lt (map fst groups)
  /\ List.NoDup (map fst groups)
  /\ (forall k, In k (map fst groups) <-> exists r, In r data /\ S3.event_id r = k)
  /\ Forall (fun eg => snd eg = rows_of_event (fst eg) data /\ snd eg <> []) groups.
Proof.
  cbn zeta. unfold groupby_event_id.
  assert (forall keys : list string,
            map fst (map (fun k => (k, List.filter
                                         (fun r => String.eqb (S3.event_id r) k) data)) keys)
            = keys) as Hfst.
  { intros keys. rewrite map_map. cbn [fst]. apply map_id. }
  rewrite Hfst.
  assert (forall k, In k (sorted_keys (map S3.event_id data))
                    <-> exists r, In r data /\ S3.event_id r = k) as Hin.
  { intros k. rewrite sorted_keys_in, in_map_iff. split; intros (r & ? & ?); eauto. }
  split; [apply sorted_keys_sorted|].
  split; [apply sorted_nodup, sorted_keys_sorted|].
  split; [exact Hin|].
  apply List.Forall_forall. intros eg Heg.
  apply in_map_iff in Heg as (k & <- & Hk). cbn [fst snd].
  split; [reflexivity|]. apply Hin in Hk as (r & Hr & Ek).
  intros Hnil.
  assert (In r (List.filter (fun r => String.eqb (S3.event_id r) k) data)) as Hrin.
  { apply filter_In. split; [exact Hr|]. now apply String.eqb_eq. }
  rewrite Hnil in Hrin. destruct Hrin.
Qed.

(** ** The SageMaker adapter *)

(** The label drawn for a prediction depends on the generator alone, and
    the generator is all that the draw changes. *)
Lemma get_label_on (self : Labeling) (prediction : string) (g : G) :
  exists l g',
    (forall f o t c tr,
        _get_label self prediction (World g f o t c tr)
        = (Ok l, World g' f o t c tr))
    /\ label_of prediction l.
Proof.
  destruct (float_lt (Finite (fst (random g))) (ground_truth_quality self)) eqn:E.
  - exists prediction, (snd (random g)). split; [|now left].
    intros. rewrite get_label_unfold. cbn [gen]. now rewrite E.
  - exists (nth (fst (randbelow 3 (snd (random g)))) LABELS ""),
           (snd (randbelow 3 (snd (random g)))).
    split; [|right; apply labels_nth_in, randbelow_range; lia].
    intros. rewrite get_label_unfold. cbn [gen]. now rewrite E.
Qed.

Lemma label_rows (self : Labeling) (rows : list S3.row) :
  forall g : G,
  exists labels g',
    (forall f o t c tr,
        for_each rows (fun row => _get_label self (S3.prediction row))
          (World g f o t c tr)
        = (Ok labels, World g' f o t c tr))
    /\ Forall2 (fun r l => label_of (S3.prediction r) l) rows labels.
Proof.
  induction rows as [|r rows IH]; intros g.
  - exists [], g. split; [reflexivity|constructor].
  - destruct (get_label_on self (S3.prediction r) g) as (l & g1 & E & Hl).
    destruct (IH g1) as (ls & g' & E' & Hls).
    exists (l :: ls), g'. split; [|constructor; assumption].
    intros. cbn [for_each]. erewrite bind_ok; [|apply E].
    erewrite bind_ok; [|apply E']. reflexivity.
Qed.

Lemma label_groups (self : Labeling) (groups : list (string * list S3.row)) :
  forall g : G,
  exists events g',
    (forall f o t c tr,
        for_each groups (fun eg =>
          bind (for_each (snd eg) (fun row => _get_label self (S3.prediction row)))
               (fun predictions =>
                  ret (dumps (ground_truth_record predictions (fst eg)))))
          (World g f o t c tr)
        = (Ok (map event_line events), World g' f o t c tr))
    /\ Forall2 labels_of_group groups events.
Proof.
  induction groups as [|eg groups IH]; intros g.
  - exists [], g. split; [reflexivity|constructor].
  - destruct (label_rows self (snd eg) g) as (ls & g1 & E & Hls).
    destruct (IH g1) as (evs & g' & E' & Hevs).
    exists ((fst eg, ls) :: evs), g'. split.
    + intros. cbn [for_each].
      erewrite bind_ok; [|erewrite bind_ok; [|apply E]; reflexivity].
      erewrite bind_ok; [|apply E']. reflexivity.
    + constructor; [|exact Hevs]. split; [reflexivity|exact Hls].
Qed.

Lemma label_events_spec (self : Labeling) (data : list S3.row) (g : G) :
  exists events g',
    (forall f o t c tr,
        label_events self data (World g f o t c tr)
        = (Ok (map event_line events), World g' f o t c tr))
    /\ Forall2 labels_of_group (groupby_event_id data) events.
Proof. apply label_groups. Qed.

Lemma load_call (ds gt : string) (g : G) f o t c tr :
  call_load_unlabeled_data load_unlabeled_data ds gt (World g f o t c tr)
  = (load_unlabeled_data o ds gt, World g f o t c (tr ++ [S3Load ds gt])).
Proof. reflexivity. Qed.

Lemma put_object_call (body bucket key : string) (g : G) f o t c tr :
  (s3_put_object body bucket key : M unit) (World g f o t c tr)
  = (Ok tt, World g f (<[(bucket, key) := body]> o) t c
              (tr ++ [S3PutObject bucket key body])).
Proof. reflexivity. Qed.

(** The adapter on a non-empty data frame: the loop, then the put or the
    failed lookup of the bucket. *)
Lemma sagemaker_nonempty (self : Labeling) (data : list S3.row) (g : G) :
  data <> [] ->
  exists events g',
    Forall2 labels_of_group (groupby_event_id data) events
    /\ (forall f o t c tr,
          label_events self data (World g f o t c tr)
          = (Ok (map event_line events), World g' f o t c tr))
    /\ (forall gt f o t c tr,
          ground_truth_uri self = Some gt -> gt <> "" ->
          load_unlabeled_data o (datastore_uri self) gt = Ok data ->
          _label_sagemaker_data load_unlabeled_data self (World g f o t c tr)
          = match split "/" gt !! 2 with
            | Some bucket =>
                (Ok (length data),
                 World g' f
                   (<[(bucket, object_key gt t) := lines (map event_line events)]> o)
                   t c
                   (tr ++ [S3Client; S3Load (datastore_uri self) gt;
                           LogInfo (LoadedFromS3 (length data));
                           S3PutObject bucket (object_key gt t)
                             (lines (map event_line events))]))
            | None =>
                (Raise IndexError,
                 World g' f o t c
                   (tr ++ [S3Client; S3Load (datastore_uri self) gt;
                           LogInfo (LoadedFromS3 (length data))]))
            end).
Proof.
  intros Hdata.
  destruct (label_events_spec self data g) as (events & g' & E & Hev).
  exists events, g'. split; [exact Hev|]. split; [exact E|].
  intros gt f o t c tr Hgt Hne Hload.
  unfold _label_sagemaker_data. rewrite Hgt.
  destruct gt as [|ch gt']; [congruence|]. set (gt := String ch gt') in *.
  erewrite bind_ok; [|apply call_event].
  erewrite bind_ok; [|rewrite load_call, Hload; reflexivity].
  erewrite bind_ok; [|apply call_event].
  assert (is_empty data = false) as ->
    by (destruct data; [congruence|reflexivity]).
  erewrite bind_ok; [|apply E].
  erewrite bind_ok; [|reflexivity].
  unfold index. destruct (split "/" gt !! 2) as [bucket|].
  - erewrite bind_ok; [|reflexivity].
    erewrite bind_ok; [|apply put_object_call].
    cbn. now rewrite <- !app_assoc.
  - cbn. now rewrite <- !app_assoc.
Qed.

Lemma sagemaker_empty (self : Labeling) (gt : string) (g : G) f o t c tr :
  ground_truth_uri self = Some gt -> gt <> "" ->
  load_unlabeled_data o (datastore_uri self) gt = Ok [] ->
  _label_sagemaker_data load_unlabeled_data self (World g f o t c tr)
  = (Ok 0, World g f o t c
             (tr ++ [S3Client; S3Load (datastore_uri self) gt;
                     LogInfo (LoadedFromS3 0)])).
Proof.
  intros Hgt Hne Hload. unfold _label_sagemaker_data. rewrite Hgt.
  destruct gt as [|ch gt']; [congruence|]. set (gt := String ch gt') in *.
  erewrite bind_ok; [|apply call_event].
  erewrite bind_ok; [|rewrite load_call, Hload; reflexivity].
  erewrite bind_ok; [|apply call_event].
  cbn. now rewrite <- !app_assoc.
Qed.

Lemma events_of_groups (data : list S3.row) (events : list (string * list string)) :
  Forall2 labels_of_group (groupby_event_id data) events ->
  map fst events = map fst (groupby_event_id data)
  /\ Forall (event_record_ok data) events.
Proof.
  intros HF.
  destruct (groupby_event_id_spec data) as (_ & _ & _ & Hgroups). cbn zeta in Hgroups.
  induction HF as [|eg ev groups events [Hk Hl] HF IH]; [split; constructor|].
  inversion Hgroups as [|? ? [Hrows _] Hgroups']; subst.
  destruct (IH Hgroups') as [IHk IHe].
  split; [cbn [map]; now rewrite Hk, IHk|].
  constructor; [|exact IHe].
  unfold event_record_ok. rewrite Hk, <- Hrows.
  split; [exact Hl|]. split.
  - unfold event_line, ground_truth_record. cbn [dumps map fst snd].
    rewrite map_map. cbn [dumps]. rewrite Hk.
    set (labels := join ", " (map (fun x => quote x) (snd ev))).
    change (join ", " (map quote (snd ev))) with labels.
    unfold join at 1 2 3. cbn [String.concat].
    rewrite !append_assoc. reflexivity.
  - exists (ground_truth_record (snd ev) (fst ev)).
    split; [apply loads_dumps|]. rewrite Hk. repeat split; reflexivity.
Qed.

(** C3. On a non-empty data frame the labeling loop yields one serialized
    record per event id of the data, each id once, and its payload is their
    join by newlines: splitting the payload at newlines gives the records
    back.  The line of an event is the text
    [{"groundTruthData": {"data": [l1, ..., ln], "encoding": "CSV"},
    "eventMetadata": {"eventId": id}, "eventVersion": "0"}] with the labels
    and the id as JSON string literals, one label per row of the event in
    the order of the rows (the row's prediction or one of the three
    species); reading the line back gives the JSON object with the labels
    under [groundTruthData.data], the string CSV under
    [groundTruthData.encoding], the event id under [eventMetadata.eventId]
    and the string 0 under [eventVersion].  The loop changes nothing but the
    generator, and whenever the adapter has a bucket to write to this
    payload is the body of its one put. *)
Theorem sagemaker_serializes_one_record_per_event
    (self : Labeling) (data : list S3.row) (w : world G) :
  data <> [] ->
  exists events w',
    let payload := lines (map event_line events) in
    label_events self data w = (Ok (map event_line events), w')
    /\ (files w' = files w /\ objects w' = objects w /\ trace w' = trace w)
    /\ split newline payload = map event_line events
    /\ length events = length (groupby_event_id data)
    /\ List.NoDup (map fst events)
    /\ (forall k, In k (map fst events) <-> exists r, In r data /\ S3.event_id r = k)
    /\ Forall (event_record_ok data) events
    /\ (forall gt bucket,
          ground_truth_uri self = Some gt -> gt <> "" ->
          split "/" gt !! 2 = Some bucket ->
          load_unlabeled_data (objects w) (datastore_uri self) gt = Ok data ->
          exists w'',
            _label_sagemaker_data load_unlabeled_data self w = (Ok (length data), w'')
            /\ trace w''
               = (trace w ++ [S3Client; S3Load (datastore_uri self) gt;
                              LogInfo (LoadedFromS3 (length data));
                              S3PutObject bucket (object_key gt (utcnow w)) payload])%list).
Proof.
  intros Hdata.
  destruct w as [g f o t c tr]. cbn [objects trace files utcnow] in *.
  destruct (sagemaker_nonempty self data g Hdata) as (events & g' & Hev & E & Eall).
  destruct (events_of_groups data events Hev) as [Hkeys Hrecords].
  destruct (groupby_event_id_spec data) as (_ & Hnd & Hin & Hgroups).
  cbn zeta in Hnd, Hin, Hgroups.
  exists events. eexists. cbn zeta.
  split; [apply E|]. cbn [trace files objects].
  split; [auto|].
  split.
  { apply split_lines.
    - destruct events as [|ev events]; [|discriminate].
      inversion Hev as [Hg|]. exfalso.
      destruct data as [|r data]; [congruence|].
      assert (In (S3.event_id r) (map fst (groupby_event_id (r :: data)))) as Hk.
      { apply Hin. exists r. split; [now left|reflexivity]. }
      rewrite <- Hg in Hk. destruct Hk.
    - apply List.Forall_forall. intros line Hline.
      apply in_map_iff in Hline as (ev & <- & _). apply dumps_no_newline. }
  split; [symmetry; eapply Forall2_length; exact Hev|].
  rewrite Hkeys. split; [exact Hnd|]. split; [exact Hin|]. split; [exact Hrecords|].
  intros gt bucket Hgt Hne Hbucket Hload.
  rewrite (Eall gt f o t c tr Hgt Hne Hload), Hbucket.
  eexists. split; reflexivity.
Qed.

(** *** The key of the object *)

Lemma split_nonempty (sep : ascii) (s : string) : split sep s <> [].
Proof.
  destruct s as [|c s]; cbn [split]; [discriminate|].
  destruct (Ascii.eqb c sep); [discriminate|].
  destruct (split sep s); discriminate.
Qed.

Lemma join_cons_char (sep : string) (c : ascii) (p : string) (ps : list string) :
  join sep (String c p :: ps) = String c (join sep (p :: ps)).
Proof. destruct ps; reflexivity. Qed.

(** Joining the parts of a split gives the string back. *)
Lemma join_split (sep : ascii) (s : string) :
  join (String sep "") (split sep s) = s.
Proof.
  induction s as [|c s IH]; [reflexivity|].
  cbn [split]. destruct (Ascii.eqb_spec c sep) as [->|Hne].
  - pose proof (split_nonempty sep s) as Hs.
    destruct (split sep s) as [|p ps]; [congruence|].
    rewrite join_cons_cons, append_nil_l, IH. reflexivity.
  - pose proof (split_nonempty sep s) as Hs.
    destruct (split sep s) as [|p ps]; [congruence|].
    rewrite join_cons_char, IH. reflexivity.
Qed.

Lemma join_app (sep : string) (l1 l2 : list string) :
  l1 <> [] -> l2 <> [] ->
  join sep (l1 ++ l2)%list = join sep l1 ++ sep ++ join sep l2.
Proof.
  intros H1 H2. induction l1 as [|x l1 IH]; [congruence|].
  destruct l1 as [|y l1].
  - destruct l2 as [|z l2]; [congruence|]. reflexivity.
  - change ((x :: y :: l1) ++ l2)%list with (x :: y :: (l1 ++ l2))%list.
    rewrite !join_cons_cons. change (y :: (l1 ++ l2))%list with ((y :: l1) ++ l2)%list.
    rewrite IH by discriminate. now rewrite !append_assoc.
Qed.

(** With a bucket and at least one more component, the URI of the object
    is the ground-truth URI with the timestamp and [.jsonl] appended. *)
Lemma object_uri (gt : string) (t : datetime) :
  3 < length (split "/" gt) ->
  join "/" (take 3 (split "/" gt)) ++ "/" ++ object_key gt t
  = gt ++ strftime t ++ ".jsonl".
Proof.
  intros Hlen. unfold object_key.
  rewrite <- (join_split "/" gt) at 3.
  rewrite <- (take_drop 3 (split "/" gt)) at 3.
  rewrite join_app.
  - now rewrite !append_assoc.
  - intros E. apply (f_equal length) in E. rewrite length_take in E. cbn [length] in E. lia.
  - intros E. apply (f_equal length) in E. rewrite length_drop in E. cbn [length] in E. lia.
Qed.

(** C4, as the code has it. When the adapter has loaded at least one record
    and has a bucket to write to, it makes exactly one [put_object] call; its
    key is the part of the ground-truth URI after the bucket, followed
    directly by the UTC time as [YYYY/MM/DD/HH/MMSS] and [.jsonl].  The put
    stores the payload under (bucket, key): every object under another key
    is as it was, no object disappears, no database file changes; an object
    that was already stored under that very key is replaced. *)
Theorem sagemaker_puts_one_object
    (self : Labeling) (gt bucket : string) (data : list S3.row) (w : world G) :
  ground_truth_uri self = Some gt -> gt <> "" ->
  split "/" gt !! 2 = Some bucket ->
  load_unlabeled_data (objects w) (datastore_uri self) gt = Ok data ->
  data <> [] ->
  let now := utcnow w in
  let key := join "/" (drop 3 (split "/" gt))
             ++ (pad4 (year now) ++ "/" ++ pad2 (month now) ++ "/" ++ pad2 (day now)
                 ++ "/" ++ pad2 (hour now) ++ "/" ++ pad2 (minute now)
                 ++ pad2 (second now))
             ++ ".jsonl" in
  exists payload w',
    _label_sagemaker_data load_unlabeled_data self w = (Ok (length data), w')
    /\ trace w' = (trace w ++ [S3Client; S3Load (datastore_uri self) gt;
                              LogInfo (LoadedFromS3 (length data));
                              S3PutObject bucket key payload])%list
    /\ objects w' = <[(bucket, key) := payload]> (objects w)
    /\ objects w' !! (bucket, key) = Some payload
    /\ (forall k, k <> (bucket, key) -> objects w' !! k = objects w !! k)
    /\ (forall k, is_Some (objects w !! k) -> is_Some (objects w' !! k))
    /\ files w' = files w
    /\ (3 < length (split "/" gt) ->
        join "/" (take 3 (split "/" gt)) ++ "/" ++ key = gt ++ strftime now ++ ".jsonl").
Proof.
  intros Hgt Hne Hbucket Hload Hdata now key.
  destruct w as [g f o t c tr]. cbn [objects trace utcnow files] in *.
  destruct (sagemaker_nonempty self data g Hdata) as (events & g' & _ & _ & Eall).
  pose proof (Eall gt f o t c tr Hgt Hne Hload) as E.
  rewrite Hbucket in E.
  assert (object_key gt t = key) as Hkey by reflexivity.
  rewrite Hkey in E.
  eexists. eexists. split; [exact E|]. cbn [objects trace files].
  split; [reflexivity|]. split; [reflexivity|].
  split; [apply lookup_insert_eq|].
  split; [intros k Hk; now apply lookup_insert_ne|].
  split.
  { intros k Hk. destruct (decide (k = (bucket, key))) as [->|Hk'].
    - rewrite lookup_insert_eq. eauto.
    - now rewrite lookup_insert_ne. }
  split; [reflexivity|].
  intros Hlen. rewrite <- Hkey. now apply object_uri.
Qed.

(** C10, as the code has it. A non-empty ground-truth URI with fewer than
    three [/]-separated components is not refused up front: the adapter
    creates the client, loads the data and logs their number.  If at least
    one record was loaded, the labels are drawn and the lookup of the bucket
    then raises [IndexError]; nothing is put.  If no record was loaded, the
    adapter returns 0 and raises nothing. *)
Theorem sagemaker_short_ground_truth_uri
    (self : Labeling) (gt : string) (data : list S3.row) (w : world G) :
  ground_truth_uri self = Some gt -> gt <> "" ->
  length (split "/" gt) < 3 ->
  load_unlabeled_data (objects w) (datastore_uri self) gt = Ok data ->
  exists w',
    _label_sagemaker_data load_unlabeled_data self w
    = (if is_empty data then Ok 0 else Raise IndexError, w')
    /\ trace w' = (trace w ++ [S3Client; S3Load (datastore_uri self) gt;
                              LogInfo (LoadedFromS3 (length data))])%list
    /\ objects w' = objects w
    /\ files w' = files w.
Proof.
  intros Hgt Hne Hlen Hload.
  destruct w as [g f o t c tr]. cbn [objects trace files] in *.
  destruct data as [|r data'].
  - eexists. split; [apply sagemaker_empty; eassumption|]. cbn. auto.
  - destruct (sagemaker_nonempty self (r :: data') g)
      as (events & g' & _ & _ & Eall); [discriminate|].
    pose proof (Eall gt f o t c tr Hgt Hne Hload) as E.
    assert (split "/" gt !! 2 = None) as Hnone by (apply lookup_ge_None; lia).
    rewrite Hnone in E.
    eexists. split; [exact E|]. cbn. auto.
Qed.

End FlowProperties.

(** * Runs on concrete inputs *)

Example sqlite_run_table0 :
  let r := run (fixed_loader []) sqlite_flow (sqlite_world table0) in
  fst r = Ok 2
  /\ files (snd r) !! "sqlite://penguins.db"
     = Some [ Sqlite.Row "u1" "Adelie" (Some "Adelie") [("island", "Biscoe")];
              Sqlite.Row "u2" "Gentoo" (Some "Gentoo") [];
              Sqlite.Row "u3" "Chinstrap" (Some "Gentoo") [] ]
  /\ trace (snd r)
     = [ SqlConnect "sqlite://penguins.db"; SqlSelectUnlabeled;
         LogInfo (LoadedFromDatabase 2);
         SqlUpdate "Adelie" "u1"; SqlUpdate "Gentoo" "u3";
         SqlCommit; SqlClose; LogInfo (LabeledSamples 2) ].
Proof. vm_compute. auto. Qed.

(** [UPDATE ... WHERE uuid = ?] reaches every row that carries the uuid:
    where a labeled row shares its uuid with an unlabeled one, it is
    relabeled with it.  The uuid column has to identify the rows. *)
Example sqlite_shared_uuid_is_relabeled :
  let shared := [ Sqlite.Row "u1" "Adelie" (Some "Chinstrap") [];
                  Sqlite.Row "u1" "Adelie" None [] ] in
  let r := _label_sqlite_data sqlite_flow (sqlite_world shared) in
  fst r = Ok 1
  /\ files (snd r) !! "sqlite://penguins.db"
     = Some [ Sqlite.Row "u1" "Adelie" (Some "Adelie") [];
              Sqlite.Row "u1" "Adelie" (Some "Adelie") [] ].
Proof. vm_compute. auto. Qed.

Example sagemaker_run_captured :
  let r := run (fixed_loader captured) (s3_flow (Some ground_truth0)) (s3_world ∅) in
  fst r = Ok 3
  /\ objects (snd r) !! ("bucket", key0) = Some payload0
  /\ trace (snd r)
     = [ S3Client; S3Load "s3://bucket/datastore" ground_truth0;
         LogInfo (LoadedFromS3 3); S3PutObject "bucket" key0 payload0;
         LogInfo (LabeledSamples 3) ].
Proof. vm_compute. auto. Qed.

(** C7 at a table with no unlabeled row: the adapter returns 0 after the
    query; [close()] is not among its calls and the connection it opened is
    left open. *)
Theorem sqlite_no_unlabeled_rows_connection_left_open :
  let r := _label_sqlite_data sqlite_flow (sqlite_world table_labeled) in
  select_unlabeled table_labeled = []
  /\ fst r = Ok 0
  /\ trace (snd r) = [ SqlConnect "sqlite://penguins.db"; SqlSelectUnlabeled;
                       LogInfo (LoadedFromDatabase 0) ]
  /\ ~ In SqlClose (trace (snd r))
  /\ conn (snd r) = Some (Connection "sqlite://penguins.db" table_labeled false).
Proof.
  vm_compute. repeat split; auto. intros [?|[?|[?|[]]]]; discriminate.
Qed.

(** ** The theorems at concrete inputs *)

Lemma get_label_any_quality_witness :
  float_le (Finite 1) (Finite (3 # 2)) = true
  /\ float_le (Finite (-1 # 2)) (Finite 0) = true
  /\ fst (_get_label (Flow "sqlite://penguins.db" None (Finite (3 # 2)))
            "Adelie" (sqlite_world table0)) = Ok "Adelie"
  /\ (exists l,
        fst (_get_label (Flow "sqlite://penguins.db" None (Finite (-1 # 2)))
               "Adelie" (sqlite_world table0)) = Ok l
        /\ In l LABELS)
  /\ fst (_get_label (Flow "sqlite://penguins.db" None PosInf)
            "Adelie" (sqlite_world table0)) = Ok "Adelie".
Proof.
  split; [reflexivity|]. split; [reflexivity|]. split; [|split].
  - exact (proj2 (proj1 (proj2 (get_label_any_quality "sqlite://penguins.db" None
             (Finite (3 # 2)) "Adelie" (sqlite_world table0))) eq_refl)).
  - exact (proj2 (proj2 (proj2 (get_label_any_quality "sqlite://penguins.db" None
             (Finite (-1 # 2)) "Adelie" (sqlite_world table0))) eq_refl)).
  - exact (proj2 (proj1 (proj2 (get_label_any_quality "sqlite://penguins.db" None
             PosInf "Adelie" (sqlite_world table0))) eq_refl)).
Defined.

Lemma sqlite_labels_exactly_the_unlabeled_witness :
  files (sqlite_world table0) !! datastore_uri sqlite_flow = Some table0
  /\ List.NoDup (map Sqlite.uuid table0)
  /\ exists data' w' rest,
       _label_sqlite_data sqlite_flow (sqlite_world table0)
       = (Ok (length (select_unlabeled table0)), w')
       /\ trace w' = (trace (sqlite_world table0)
                      ++ [SqlConnect (datastore_uri sqlite_flow); SqlSelectUnlabeled;
                          LogInfo (LoadedFromDatabase (length (select_unlabeled table0)))]
                      ++ rest)%list
       /\ files w' !! datastore_uri sqlite_flow = Some data'
       /\ Forall2 labeled_from table0 data'
       /\ (forall r', In r' data' -> Sqlite.species r' <> None)
       /\ (forall path, path <> datastore_uri sqlite_flow ->
             files w' !! path = files (sqlite_world table0) !! path).
Proof.
  assert (Hf : files (sqlite_world table0) !! datastore_uri sqlite_flow = Some table0)
    by reflexivity.
  assert (Hnd : List.NoDup (map Sqlite.uuid table0)).
  { cbn. repeat constructor; cbn; intuition discriminate. }
  split; [exact Hf|]. split; [exact Hnd|].
  exact (proj2 (proj2 (sqlite_labels_exactly_the_unlabeled sqlite_flow
                         (sqlite_world table0) table0 Hf Hnd))).
Defined.

Lemma start_rejects_unknown_scheme_witness :
  String.prefix "sqlite://" "http://example.org/data.db" = false
  /\ String.prefix "s3://" "http://example.org/data.db" = false
  /\ start (fixed_loader captured)
       (Flow "http://example.org/data.db" None quality_default) (s3_world ∅)
     = (Raise (ValueError invalid_datastore_message), s3_world ∅).
Proof.
  split; [reflexivity|]. split; [reflexivity|].
  exact (proj1 (start_rejects_unknown_scheme (fixed_loader captured)
                  (Flow "http://example.org/data.db" None quality_default)
                  (s3_world ∅) eq_refl eq_refl)).
Defined.

Lemma sagemaker_requires_ground_truth_witness :
  (ground_truth_uri (s3_flow None) = None \/ ground_truth_uri (s3_flow None) = Some "")
  /\ String.prefix "s3://" (datastore_uri (s3_flow None)) = true
  /\ start (fixed_loader captured) (s3_flow None) (s3_world ∅)
     = (Raise (RuntimeError required_message), s3_world ∅).
Proof.
  split; [now left|]. split; [reflexivity|].
  exact (proj2 (sagemaker_requires_ground_truth (fixed_loader captured)
                  (s3_flow None) (s3_world ∅) (or_introl eq_refl)) eq_refl).
Defined.

Lemma sagemaker_serializes_one_record_per_event_witness :
  captured <> []
  /\ exists events w',
       label_events (s3_flow (Some ground_truth0)) captured (s3_world ∅)
       = (Ok (map event_line events), w')
       /\ split newline (lines (map event_line events)) = map event_line events
       /\ length events = 2
       /\ Forall (event_record_ok captured) events.
Proof.
  split; [discriminate|].
  destruct (sagemaker_serializes_one_record_per_event (fixed_loader captured)
              (s3_flow (Some ground_truth0)) captured (s3_world ∅)
              ltac:(discriminate))
    as (events & w' & E & _ & Hsplit & Hlen & _ & _ & Hrec & _).
  exists events, w'. auto.
Defined.

Lemma sagemaker_puts_one_object_witness :
  ground_truth_uri (s3_flow (Some ground_truth0)) = Some ground_truth0
  /\ ground_truth0 <> ""
  /\ split "/" ground_truth0 !! 2 = Some "bucket"
  /\ fixed_loader captured (objects (s3_world ∅))
       (datastore_uri (s3_flow (Some ground_truth0))) ground_truth0 = Ok captured
  /\ captured <> []
  /\ exists payload w',
       _label_sagemaker_data (fixed_loader captured) (s3_flow (Some ground_truth0))
         (s3_world ∅) = (Ok (length captured), w')
       /\ trace w' = (trace (s3_world ∅)
                      ++ [S3Client;
                          S3Load (datastore_uri (s3_flow (Some ground_truth0))) ground_truth0;
                          LogInfo (LoadedFromS3 (length captured));
                          S3PutObject "bucket" key0 payload])%list
       /\ objects w' = <[("bucket", key0) := payload]> (objects (s3_world ∅))
       /\ objects w' !! ("bucket", key0) = Some payload
       /\ (forall k, k <> ("bucket", key0) ->
             objects w' !! k = objects (s3_world ∅) !! k)
       /\ (forall k, is_Some (objects (s3_world ∅) !! k) -> is_Some (objects w' !! k))
       /\ files w' = files (s3_world ∅)
       /\ (3 < length (split "/" ground_truth0) ->
           join "/" (take 3 (split "/" ground_truth0)) ++ "/" ++ key0
           = ground_truth0 ++ strftime (utcnow (s3_world ∅)) ++ ".jsonl").
Proof.
  split; [reflexivity|]. split; [discriminate|]. split; [reflexivity|].
  split; [reflexivity|]. split; [discriminate|].
  exact (sagemaker_puts_one_object (fixed_loader captured)
           (s3_flow (Some ground_truth0)) ground_truth0 "bucket" captured (s3_world ∅)
           eq_refl ltac:(discriminate) eq_refl eq_refl ltac:(discriminate)).
Defined.

(** C4 as stated fails when an object already sits under the key of this
    second: the put replaces it. *)
Lemma sagemaker_put_replaces_existing_object :
  let w := s3_world {[ ("bucket", key0) := "labels of an earlier run" ]} in
  let w' := snd (_label_sagemaker_data (fixed_loader captured)
                   (s3_flow (Some ground_truth0)) w) in
  objects w !! ("bucket", key0) = Some "labels of an earlier run"
  /\ objects w' !! ("bucket", key0) = Some payload0
  /\ ~ (forall k body, objects w !! k = Some body -> objects w' !! k = Some body).
Proof.
  cbn zeta. split; [reflexivity|]. split; [vm_compute; reflexivity|].
  intros Hall.
  specialize (Hall ("bucket", key0) "labels of an earlier run" eq_refl).
  vm_compute in Hall. discriminate.
Qed.

Lemma sagemaker_short_ground_truth_uri_witness :
  ground_truth_uri (s3_flow (Some "ground-truth")) = Some "ground-truth"
  /\ "ground-truth" <> ""
  /\ length (split "/" "ground-truth") < 3
  /\ fixed_loader captured (objects (s3_world ∅))
       (datastore_uri (s3_flow (Some "ground-truth"))) "ground-truth" = Ok captured
  /\ exists w',
       _label_sagemaker_data (fixed_loader captured) (s3_flow (Some "ground-truth"))
         (s3_world ∅) = (Raise IndexError, w')
       /\ trace w' = (trace (s3_world ∅)
                      ++ [S3Client;
                          S3Load (datastore_uri (s3_flow (Some "ground-truth")))
                            "ground-truth";
                          LogInfo (LoadedFromS3 (length captured))])%list
       /\ objects w' = objects (s3_world ∅)
       /\ files w' = files (s3_world ∅).
Proof.
  split; [reflexivity|]. split; [discriminate|]. split; [cbn; lia|].
  split; [reflexivity|].
  exact (sagemaker_short_ground_truth_uri (fixed_loader captured)
           (s3_flow (Some "ground-truth")) "ground-truth" captured (s3_world ∅)
           eq_refl ltac:(discriminate) ltac:(cbn; lia) eq_refl).
Defined.

(** C10 as stated fails when nothing was loaded: with a ground-truth URI of
    one component and an empty data frame the adapter returns 0. *)
Lemma sagemaker_short_uri_without_data_returns_zero :
  let r := _label_sagemaker_data (fixed_loader []) (s3_flow (Some "ground-truth"))
             (s3_world ∅) in
  "ground-truth" <> ""
  /\ length (split "/" "ground-truth") < 3
  /\ fst r = Ok 0
  /\ fst r <> Raise IndexError.
Proof.
  cbn zeta. split; [discriminate|]. split; [cbn; lia|].
  split; [reflexivity|]. vm_compute. discriminate.
Qed.

(** * Further properties of the flow *)

Section MoreProperties.

Context {G : Type} `{RandomGen G}.
Variable load_unlabeled_data :
  gmap (string * string) string -> string -> string -> result (list S3.row).

(** ** The SQLite adapter on any table *)

Lemma row_update_columns lu r :
  Sqlite.uuid (row_update lu r) = Sqlite.uuid r
  /\ Sqlite.prediction (row_update lu r) = Sqlite.prediction r
  /\ Sqlite.features (row_update lu r) = Sqlite.features r.
Proof. unfold row_update. destruct (String.eqb _ _); auto. Qed.

Lemma row_after_columns (updates : list (string * string)) :
  forall r,
    Sqlite.uuid (row_after updates r) = Sqlite.uuid r
    /\ Sqlite.prediction (row_after updates r) = Sqlite.prediction r
    /\ Sqlite.features (row_after updates r) = Sqlite.features r.
Proof.
  induction updates as [|lu updates IH]; intros r; [auto|].
  rewrite row_after_cons.
  destruct (IH (row_update lu r)) as (-> & -> & ->). apply row_update_columns.
Qed.

Lemma row_update_keeps_label lu r :
  Sqlite.species r <> None -> Sqlite.species (row_update lu r) <> None.
Proof. unfold row_update. destruct (String.eqb _ _); [discriminate|auto]. Qed.

Lemma row_after_keeps_label (updates : list (string * string)) :
  forall r, Sqlite.species r <> None -> Sqlite.species (row_after updates r) <> None.
Proof.
  induction updates as [|lu updates IH]; intros r Hr; [exact Hr|].
  rewrite row_after_cons. now apply IH, row_update_keeps_label.
Qed.

Lemma row_after_reached (updates : list (string * string)) :
  forall r, In (Sqlite.uuid r) (map snd updates) ->
            Sqlite.species (row_after updates r) <> None.
Proof.
  induction updates as [|[l u] updates IH]; intros r Hin; [destruct Hin|].
  rewrite row_after_cons. cbn [map snd] in Hin.
  destruct (String.eqb_spec (Sqlite.uuid r) u) as [<-|Hne].
  - rewrite row_update_hit. apply row_after_keeps_label. discriminate.
  - destruct Hin as [E|Hin]; [congruence|].
    rewrite row_update_miss by exact Hne. now apply IH.
Qed.

Lemma all_labeled_select (data : list Sqlite.row) :
  Forall (fun r => Sqlite.species r <> None) data <-> select_unlabeled data = [].
Proof.
  induction data as [|r data IH]; [split; [reflexivity|constructor]|].
  unfold select_unlabeled in *. cbn [List.filter]. unfold unlabeled at 1.
  split.
  - intros HF. inversion HF as [|? ? Hr HF']; subst.
    destruct (Sqlite.species r); [now apply IH|congruence].
  - destruct (Sqlite.species r) eqn:E; [|discriminate].
    intros Hdf. constructor; [now rewrite E|now apply IH].
Qed.

(** The table after the updates of a run, whatever its uuids. *)
Lemma updates_label_every_row (data : list Sqlite.row) (labels : list string) :
  length labels = length (select_unlabeled data) ->
  let data' := apply_updates (combine labels (map Sqlite.uuid (select_unlabeled data)))
                 data in
  map Sqlite.uuid data' = map Sqlite.uuid data
  /\ map Sqlite.prediction data' = map Sqlite.prediction data
  /\ map Sqlite.features data' = map Sqlite.features data
  /\ Forall (fun r => Sqlite.species r <> None) data'.
Proof.
  intros Hlen data'. subst data'. rewrite apply_updates_rows.
  set (updates := combine labels (map Sqlite.uuid (select_unlabeled data))).
  assert (map snd updates = map Sqlite.uuid (select_unlabeled data)) as Hsnd.
  { apply map_snd_combine. now rewrite length_map. }
  rewrite !map_map.
  split; [apply map_ext; intros r; apply row_after_columns|].
  split; [apply map_ext; intros r; apply row_after_columns|].
  split; [apply map_ext; intros r; apply row_after_columns|].
  apply List.Forall_forall. intros r' Hr'.
  apply in_map_iff in Hr' as (r & <- & Hr).
  destruct (Sqlite.species r) eqn:Es.
  - apply row_after_keeps_label. now rewrite Es.
  - apply row_after_reached. rewrite Hsnd. apply in_map.
    apply select_unlabeled_spec. auto.
Qed.

(** X1. Whatever the table, uuids repeated or not: when the adapter returns,
    the table of the file has the same rows in the same places with their
    uuid, prediction and remaining columns untouched, and not one of them is
    left without a label. *)
Theorem sqlite_leaves_no_row_unlabeled
    (self : Labeling) (w : world G) (data : list Sqlite.row) :
  files w !! datastore_uri self = Some data ->
  exists data' w',
    _label_sqlite_data self w = (Ok (length (select_unlabeled data)), w')
    /\ files w' !! datastore_uri self = Some data'
    /\ map Sqlite.uuid data' = map Sqlite.uuid data
    /\ map Sqlite.prediction data' = map Sqlite.prediction data
    /\ map Sqlite.features data' = map Sqlite.features data
    /\ Forall (fun r => Sqlite.species r <> None) data'
    /\ select_unlabeled data' = [].
Proof.
  intros Hf. destruct w as [g f o t c tr]. cbn [files] in *.
  destruct (select_unlabeled data) as [|r0 df0] eqn:Edf.
  - exists data. eexists.
    split; [apply label_sqlite_empty; eassumption|]. cbn [files].
    split; [exact Hf|]. repeat (split; [reflexivity|]).
    split; [now apply all_labeled_select|exact Edf].
  - destruct (label_sqlite_nonempty self data g f o t c tr Hf)
      as (labels & g' & E & Hl); [congruence|].
    cbn zeta in E. apply Forall2_length in Hl.
    destruct (updates_label_every_row data labels (eq_sym Hl))
      as (Hu & Hp & Hx & Hall).
    rewrite Edf in *.
    eexists. eexists. split; [exact E|]. cbn [files].
    split; [apply lookup_insert_eq|].
    split; [exact Hu|]. split; [exact Hp|]. split; [exact Hx|].
    split; [exact Hall|now apply all_labeled_select].
Qed.

(** After a run the table of the file has no unlabeled row. *)
Lemma sqlite_run_labels_all
    (self : Labeling) (w : world G) (data : list Sqlite.row) :
  files w !! datastore_uri self = Some data ->
  exists data' w',
    _label_sqlite_data self w = (Ok (length (select_unlabeled data)), w')
    /\ files w' !! datastore_uri self = Some data'
    /\ select_unlabeled data' = [].
Proof.
  intros Hf. destruct w as [g f o t c tr]. cbn [files] in *.
  destruct (select_unlabeled data) as [|r0 df0] eqn:Edf.
  - exists data. eexists.
    split; [apply label_sqlite_empty; eassumption|]. cbn [files]. auto.
  - destruct (label_sqlite_nonempty self data g f o t c tr Hf)
      as (labels & g' & E & Hl); [congruence|].
    cbn zeta in E. apply Forall2_length in Hl.
    destruct (updates_label_every_row data labels (eq_sym Hl)) as (_ & _ & _ & Hall).
    rewrite Edf in *.
    eexists. eexists. split; [exact E|]. cbn [files].
    split; [apply lookup_insert_eq|now apply all_labeled_select].
Qed.

(** X2. Running the adapter a second time, on what the first run left,
    finds nothing to label: it returns 0 and changes no file. *)
Theorem sqlite_second_run_labels_nothing
    (self : Labeling) (w : world G) (data : list Sqlite.row) :
  files w !! datastore_uri self = Some data ->
  exists w1 w2,
    _label_sqlite_data self w = (Ok (length (select_unlabeled data)), w1)
    /\ _label_sqlite_data self w1 = (Ok 0, w2)
    /\ files w2 = files w1
    /\ (exists added, trace w2 = (trace w1 ++ added)%list
                      /\ forall l u, ~ In (SqlUpdate l u) added).
Proof.
  intros Hf.
  destruct (sqlite_run_labels_all self w data Hf) as (data' & w1 & E1 & Hf1 & Hdf1).
  exists w1. destruct w1 as [g1 f1 o1 t1 c1 tr1]. cbn [files trace] in *.
  eexists. split; [exact E1|].
  split; [apply (label_sqlite_empty self data'); assumption|].
  cbn [files trace]. split; [reflexivity|].
  eexists. split; [reflexivity|].
  intros l u [?|[?|[?|[]]]]; discriminate.
Qed.

(** X3. A run on a [sqlite://] datastore whose file holds a table: it
    returns the number [N] of unlabeled rows; its calls are the connect, the
    query, the log of [N], one [UPDATE] per unlabeled row in the order of the
    table and with that row's uuid, then (only when [N > 0]) one commit and
    one close, and last the log of [N] labeled samples by [end]. *)
Theorem run_sqlite_calls
    (self : Labeling) (w : world G) (data : list Sqlite.row) :
  String.prefix "sqlite://" (datastore_uri self) = true ->
  files w !! datastore_uri self = Some data ->
  let df := select_unlabeled data in
  exists updates w',
    run load_unlabeled_data self w = (Ok (length df), w')
    /\ map snd updates = map Sqlite.uuid df
    /\ Forall2 (fun r lu => label_of (Sqlite.prediction r) (fst lu)) df updates
    /\ trace w'
       = (trace w
          ++ [SqlConnect (datastore_uri self); SqlSelectUnlabeled;
              LogInfo (LoadedFromDatabase (length df))]
          ++ update_events updates
          ++ (if is_empty df then [] else [SqlCommit; SqlClose])
          ++ [LogInfo (LabeledSamples (length df))])%list.
Proof.
  intros Hscheme Hf. cbn zeta.
  assert (start load_unlabeled_data self w = _label_sqlite_data self w) as Hstart
    by (unfold start; now rewrite Hscheme).
  destruct w as [g f o t c tr]. cbn [files trace] in *.
  destruct (select_unlabeled data) as [|r0 df0] eqn:Edf.
  - exists []. eexists.
    split.
    { unfold run. erewrite bind_ok;
        [|rewrite Hstart; apply (label_sqlite_empty self data); eassumption].
      reflexivity. }
    cbn [trace]. split; [reflexivity|]. split; [constructor|].
    cbn. now rewrite <- !app_assoc.
  - destruct (label_sqlite_nonempty self data g f o t c tr Hf)
      as (labels & g' & E & Hl); [congruence|].
    cbn zeta in E. rewrite Edf in E, Hl.
    set (df := r0 :: df0) in *.
    exists (combine labels (map Sqlite.uuid df)). eexists.
    split.
    { unfold run. erewrite bind_ok; [|rewrite Hstart; exact E]. reflexivity. }
    assert (length labels = length (map Sqlite.uuid df)) as Hlen
      by (rewrite length_map; symmetry; eapply Forall2_length; exact Hl).
    split; [now apply map_snd_combine|].
    split.
    { clear E. revert labels Hl Hlen. generalize df as rows.
      induction rows as [|r rows IH]; intros labels Hl Hlen;
        inversion Hl; subst; [constructor|].
      cbn [map combine]. constructor; [assumption|].
      apply IH; [assumption|]. cbn in Hlen. now injection Hlen. }
    change (is_empty df) with false. cbn [emit trace]. now rewrite <- !app_assoc.
Qed.

(** ** What each adapter leaves alone *)

Lemma load_raises (self : Labeling) (gt : string) (e : exn) (g : G) f o t c tr :
  ground_truth_uri self = Some gt -> gt <> "" ->
  load_unlabeled_data o (datastore_uri self) gt = Raise e ->
  _label_sagemaker_data load_unlabeled_data self (World g f o t c tr)
  = (Raise e, World g f o t c (tr ++ [S3Client; S3Load (datastore_uri self) gt])).
Proof.
  intros Hgt Hne Hload. unfold _label_sagemaker_data. rewrite Hgt.
  destruct gt as [|ch gt']; [congruence|]. set (gt := String ch gt') in *.
  erewrite bind_ok; [|apply call_event].
  erewrite bind_raise; [|rewrite load_call, Hload; reflexivity].
  now rewrite <- !app_assoc.
Qed.

(** X4. [start] runs one adapter and the other store is out of its reach.
    On a [sqlite://] URI no S3 object changes and none of the calls is an S3
    call, whatever the ground-truth URI; on any other URI no database file
    changes, no connection is opened and none of the calls is a database
    call.  This holds whether the run returns or raises. *)
Theorem start_touches_one_store (self : Labeling) (w : world G) :
  exists added,
    trace (snd (start load_unlabeled_data self w)) = (trace w ++ added)%list
    /\ utcnow (snd (start load_unlabeled_data self w)) = utcnow w
    /\ if String.prefix "sqlite://" (datastore_uri self)
       then objects (snd (start load_unlabeled_data self w)) = objects w
            /\ forallb (fun e => negb (is_s3_event e)) added = true
       else files (snd (start load_unlabeled_data self w)) = files w
            /\ conn (snd (start load_unlabeled_data self w)) = conn w
            /\ forallb (fun e => negb (is_sql_event e)) added = true.
Proof.
  destruct w as [g f o t c tr]. unfold start.
  destruct (String.prefix "sqlite://" (datastore_uri self)).
  - destruct (f !! datastore_uri self) as [data|] eqn:Hf.
    + destruct (select_unlabeled data) as [|r0 df0] eqn:Edf.
      * rewrite (label_sqlite_empty self data g f o t c tr Hf Edf).
        cbn [snd trace utcnow objects]. eexists. split; [reflexivity|]. auto.
      * destruct (label_sqlite_nonempty self data g f o t c tr Hf)
          as (labels & g' & E & _); [congruence|].
        cbn zeta in E. rewrite E. cbn [snd trace utcnow objects].
        eexists. split; [reflexivity|]. split; [reflexivity|].
        split; [reflexivity|].
        cbn [forallb is_s3_event negb andb app]. rewrite forallb_app.
        apply andb_true_intro. split; [|reflexivity].
        generalize (combine labels (map Sqlite.uuid (select_unlabeled data))).
        intros ups. induction ups as [|lu ups IH]; [reflexivity|exact IH].
    + rewrite (label_sqlite_missing self g f o t c tr Hf).
      cbn [snd trace utcnow objects]. eexists. split; [reflexivity|]. auto.
  - destruct (String.prefix "s3://" (datastore_uri self));
      [|exists []; cbn; rewrite app_nil_r; auto].
    destruct (ground_truth_uri self) as [gt|] eqn:Hgt;
      [|unfold _label_sagemaker_data; rewrite Hgt;
        exists []; cbn; rewrite app_nil_r; auto].
    destruct (string_dec gt "") as [->|Hne];
      [unfold _label_sagemaker_data; rewrite Hgt;
       exists []; cbn; rewrite app_nil_r; auto|].
    destruct (load_unlabeled_data o (datastore_uri self) gt) as [data|e] eqn:Hload.
    + destruct data as [|r data'].
      * rewrite (sagemaker_empty load_unlabeled_data self gt g f o t c tr Hgt Hne Hload).
        cbn [snd trace utcnow files conn]. eexists. split; [reflexivity|]. auto.
      * destruct (sagemaker_nonempty load_unlabeled_data self (r :: data') g)
          as (events & g' & _ & _ & Eall); [discriminate|].
        rewrite (Eall gt f o t c tr Hgt Hne Hload).
        destruct (split "/" gt !! 2) as [bucket|];
          cbn [snd trace utcnow files conn];
          eexists; (split; [reflexivity|]); auto.
    + rewrite (load_raises self gt e g f o t c tr Hgt Hne Hload).
      cbn [snd trace utcnow files conn]. eexists. split; [reflexivity|]. auto.
Qed.

(** ** The SageMaker adapter at its edges *)

Lemma start_s3 (self : Labeling) (w : world G) :
  String.prefix "s3://" (datastore_uri self) = true ->
  start load_unlabeled_data self w = _label_sagemaker_data load_unlabeled_data self w.
Proof.
  intros Hs3. unfold start. rewrite Hs3.
  apply prefix_append in Hs3 as (rest & Hds).
  assert (String.prefix "sqlite://" (datastore_uri self) = false) as ->
    by (rewrite Hds; reflexivity).
  reflexivity.
Qed.

(** X5. An exception of [load_unlabeled_data] is not caught: the run on an
    [s3://] datastore raises that same exception after the client was
    created and the load was called.  No label was drawn, nothing was put
    and [end] logged nothing. *)
Theorem run_propagates_load_error
    (self : Labeling) (gt : string) (e : exn) (w : world G) :
  String.prefix "s3://" (datastore_uri self) = true ->
  ground_truth_uri self = Some gt -> gt <> "" ->
  load_unlabeled_data (objects w) (datastore_uri self) gt = Raise e ->
  exists w',
    run load_unlabeled_data self w = (Raise e, w')
    /\ trace w' = (trace w ++ [S3Client; S3Load (datastore_uri self) gt])%list
    /\ gen w' = gen w
    /\ objects w' = objects w.
Proof.
  intros Hs3 Hgt Hne Hload. destruct w as [g f o t c tr]. cbn [objects trace gen] in *.
  eexists. split.
  - unfold run. erewrite bind_raise; [reflexivity|].
    rewrite start_s3 by exact Hs3. apply (load_raises self gt); assumption.
  - cbn. auto.
Qed.

(** X6. When the load finds no unlabeled record, the run on an [s3://]
    datastore returns 0: it has created the client, loaded, logged 0 loaded
    and 0 labeled samples, and that is all.  It draws no random number, does
    not look at the bucket of the ground-truth URI (which may lack one) and
    puts no object. *)
Theorem run_s3_without_data
    (self : Labeling) (gt : string) (w : world G) :
  String.prefix "s3://" (datastore_uri self) = true ->
  ground_truth_uri self = Some gt -> gt <> "" ->
  load_unlabeled_data (objects w) (datastore_uri self) gt = Ok [] ->
  exists w',
    run load_unlabeled_data self w = (Ok 0, w')
    /\ trace w' = (trace w ++ [S3Client; S3Load (datastore_uri self) gt;
                              LogInfo (LoadedFromS3 0); LogInfo (LabeledSamples 0)])%list
    /\ gen w' = gen w
    /\ objects w' = objects w.
Proof.
  intros Hs3 Hgt Hne Hload. destruct w as [g f o t c tr]. cbn [objects trace gen] in *.
  eexists. split.
  - unfold run. erewrite bind_ok;
      [|rewrite start_s3 by exact Hs3; apply (sagemaker_empty load_unlabeled_data self gt); assumption].
    reflexivity.
  - cbn. rewrite <- !app_assoc. auto.
Qed.

(** ** The groups partition the data *)

Lemma filter_split_permutation {A} (p : A -> bool) (l : list A) :
  Permutation (List.filter p l ++ List.filter (fun x => negb (p x)) l) l.
Proof.
  induction l as [|a l IH]; [constructor|].
  cbn [List.filter]. destruct (p a); cbn [negb app].
  - now constructor.
  - symmetry. apply Permutation_cons_app. now symmetry.
Qed.

Lemma filter_filter_implied {A} (p q : A -> bool) (l : list A) :
  (forall x, p x = true -> q x = true) ->
  List.filter p (List.filter q l) = List.filter p l.
Proof.
  intros Hpq. induction l as [|a l IH]; [reflexivity|].
  cbn [List.filter]. destruct (q a) eqn:Eq; cbn [List.filter].
  - destruct (p a); now rewrite IH.
  - destruct (p a) eqn:Ep; [|exact IH]. apply Hpq in Ep. congruence.
Qed.

Lemma groups_partition (keys : list string) :
  forall data : list S3.row,
    List.NoDup keys ->
    (forall r, In r data -> In (S3.event_id r) keys) ->
    Permutation (concat (map (fun k => rows_of_event k data) keys)) data.
Proof.
  induction keys as [|k keys IH]; intros data Hnd Hin.
  - destruct data as [|r data]; [constructor|]. destruct (Hin r); now left.
  - inversion Hnd as [|? ? Hk Hnd']; subst. cbn [map concat].
    set (rest := List.filter (fun r => negb (String.eqb (S3.event_id r) k)) data).
    assert (map (fun k' => rows_of_event k' data) keys
            = map (fun k' => rows_of_event k' rest) keys) as ->.
    { apply map_ext_in. intros k' Hk'. unfold rows_of_event, rest.
      symmetry. apply filter_filter_implied. intros r Er.
      apply String.eqb_eq in Er. apply negb_true_iff, String.eqb_neq. congruence. }
    etransitivity; [|apply (filter_split_permutation
                              (fun r => String.eqb (S3.event_id r) k) data)].
    apply Permutation_app_head. apply IH; [exact Hnd'|].
    intros r Hr. apply filter_In in Hr as [Hr Hne].
    apply negb_true_iff, String.eqb_neq in Hne.
    destruct (Hin r Hr) as [E|Hkeys]; [congruence|exact Hkeys].
Qed.

Lemma groupby_rows (data : list S3.row) :
  map snd (groupby_event_id data)
  = map (fun k => rows_of_event k data) (sorted_keys (map S3.event_id data)).
Proof. unfold groupby_event_id. now rewrite map_map. Qed.

Lemma labels_total (groups : list (string * list S3.row))
    (events : list (string * list string)) :
  Forall2 labels_of_group groups events ->
  length (concat (map snd events)) = length (concat (map snd groups)).
Proof.
  induction 1 as [|eg ev groups events [_ Hl] _ IH]; [reflexivity|].
  cbn [map concat]. rewrite !length_app, IH.
  f_equal. symmetry. eapply Forall2_length. exact Hl.
Qed.

(** X7. The labeling loop of the SageMaker adapter labels every loaded row
    exactly once, also when events are interleaved in the data: the groups
    it walks are a rearrangement of the data (no row lost, none repeated),
    each group gets one label per row, so the labels in the payload are as
    many as the rows; and the records come in increasing order of event
    id. *)
Theorem label_events_labels_each_row_once
    (self : Labeling) (data : list S3.row) (w : world G) :
  exists events w',
    label_events self data w = (Ok (map event_line events), w')
    /\ Forall2 labels_of_group (groupby_event_id data) events
    /\ Permutation (concat (map snd (groupby_event_id data))) data
    /\ length (concat (map snd events)) = length data
    /\ StronglySorted key_lt (map fst events).
Proof.
  destruct w as [g f o t c tr].
  destruct (label_events_spec self data g) as (events & g' & E & Hev).
  destruct (groupby_event_id_spec data) as (Hsorted & Hnd & Hin & _).
  cbn zeta in Hsorted, Hnd, Hin.
  assert (Permutation (concat (map snd (groupby_event_id data))) data) as Hperm.
  { rewrite groupby_rows. apply groups_partition.
    - apply sorted_nodup, sorted_keys_sorted.
    - intros r Hr. apply sorted_keys_in. now apply in_map. }
  exists events. eexists. split; [apply E|]. split; [exact Hev|].
  split; [exact Hperm|]. split.
  - rewrite (labels_total _ _ Hev). now apply Permutation_length.
  - assert (map fst events = map fst (groupby_event_id data)) as ->; [|exact Hsorted].
    clear -Hev. induction Hev as [|eg ev groups events [Hk _] _ IH]; [reflexivity|].
    cbn [map]. now rewrite Hk, IH.
Qed.

(** ** Bucket and key *)

Lemma split_s3_uri (bucket path : string) :
  occurs "/" bucket = false ->
  split "/" ("s3://" ++ bucket ++ "/" ++ path)
  = "s3:" :: "" :: bucket :: split "/" path.
Proof.
  intros Hb.
  change ("s3://" ++ bucket ++ "/" ++ path)
    with ("s3:" ++ String "/" ("" ++ String "/" (bucket ++ String "/" path))).
  rewrite split_append by reflexivity.
  rewrite split_append by reflexivity.
  now rewrite split_append by exact Hb.
Qed.

(** X8. For a ground-truth URI [s3://bucket/path] the one put of the
    adapter goes to that bucket, and its key is [path] with the timestamp
    and [.jsonl] appended as they are: no [/] is added between them, so the
    object sits in the folder [path] only if [path] ends with [/], and an
    empty [path] gives a key that is the timestamp alone. *)
Theorem sagemaker_puts_into_uri_bucket
    (self : Labeling) (bucket path : string) (data : list S3.row) (w : world G) :
  ground_truth_uri self = Some ("s3://" ++ bucket ++ "/" ++ path) ->
  occurs "/" bucket = false ->
  load_unlabeled_data (objects w) (datastore_uri self)
    ("s3://" ++ bucket ++ "/" ++ path) = Ok data ->
  data <> [] ->
  exists payload w',
    _label_sagemaker_data load_unlabeled_data self w = (Ok (length data), w')
    /\ objects w'
       = <[(bucket, path ++ strftime (utcnow w) ++ ".jsonl") := payload]> (objects w)
    /\ In (S3PutObject bucket (path ++ strftime (utcnow w) ++ ".jsonl") payload)
          (trace w').
Proof.
  intros Hgt Hb Hload Hdata.
  destruct w as [g f o t c tr]. cbn [objects utcnow trace] in *.
  destruct (sagemaker_nonempty load_unlabeled_data self data g Hdata)
    as (events & g' & _ & _ & Eall).
  pose proof (Eall _ f o t c tr Hgt ltac:(discriminate) Hload) as E.
  rewrite (split_s3_uri bucket path Hb) in E. cbn [lookup list_lookup] in E.
  assert (object_key ("s3://" ++ bucket ++ "/" ++ path) t
          = path ++ strftime t ++ ".jsonl") as Hkey.
  { unfold object_key. rewrite (split_s3_uri bucket path Hb).
    change (drop 3 ("s3:" :: "" :: bucket :: split "/" path))
      with (split "/" path).
    now rewrite join_split. }
  rewrite Hkey in E.
  eexists. eexists. split; [exact E|]. cbn [objects trace].
  split; [reflexivity|].
  apply in_or_app. right. cbn. auto.
Qed.

(** ** Timestamps *)

Lemma digit_mod (a b : nat) : digit a = digit b -> a mod 10 = b mod 10.
Proof.
  unfold digit. intros E. apply (f_equal nat_of_ascii) in E.
  pose proof (Nat.mod_upper_bound a 10 ltac:(lia)).
  pose proof (Nat.mod_upper_bound b 10 ltac:(lia)).
  rewrite !nat_ascii_embedding in E by lia. lia.
Qed.

Lemma pad2_digits (a b : nat) :
  a < 100 -> b < 100 ->
  digit (a / 10) = digit (b / 10) -> digit a = digit b -> a = b.
Proof.
  intros Ha Hb E1 E0. apply digit_mod in E1, E0.
  pose proof (Nat.div_mod_eq a 10). pose proof (Nat.div_mod_eq b 10).
  assert (a / 10 < 10) by (apply Nat.Div0.div_lt_upper_bound; lia).
  assert (b / 10 < 10) by (apply Nat.Div0.div_lt_upper_bound; lia).
  rewrite (Nat.mod_small (a / 10)) in E1 by lia.
  rewrite (Nat.mod_small (b / 10)) in E1 by lia.
  lia.
Qed.

Lemma pad4_digits (a b : nat) :
  a < 10 * 1000 -> b < 10 * 1000 ->
  digit (a / 1000) = digit (b / 1000) -> digit (a / 100) = digit (b / 100) ->
  digit (a / 10) = digit (b / 10) -> digit a = digit b -> a = b.
Proof.
  intros Ha Hb E3 E2 E1 E0. apply digit_mod in E3, E2, E1, E0.
  assert (a / 1000 < 10) by (apply Nat.Div0.div_lt_upper_bound; lia).
  assert (b / 1000 < 10) by (apply Nat.Div0.div_lt_upper_bound; lia).
  rewrite (Nat.mod_small (a / 1000)) in E3 by lia.
  rewrite (Nat.mod_small (b / 1000)) in E3 by lia.
  pose proof (Nat.div_mod_eq a 10). pose proof (Nat.div_mod_eq b 10).
  pose proof (Nat.div_mod_eq (a / 10) 10). pose proof (Nat.div_mod_eq (b / 10) 10).
  pose proof (Nat.div_mod_eq (a / 100) 10). pose proof (Nat.div_mod_eq (b / 100) 10).
  replace (a / 100) with (a / 10 / 10) in * by (rewrite Nat.Div0.div_div; reflexivity).
  replace (b / 100) with (b / 10 / 10) in * by (rewrite Nat.Div0.div_div; reflexivity).
  replace (a / 1000) with (a / 10 / 10 / 10) in *
    by (rewrite !Nat.Div0.div_div; reflexivity).
  replace (b / 1000) with (b / 10 / 10 / 10) in *
    by (rewrite !Nat.Div0.div_div; reflexivity).
  lia.
Qed.

Lemma append_inv_head (a x y : string) : a ++ x = a ++ y -> x = y.
Proof.
  induction a as [|c a IH]; [auto|].
  rewrite !append_cons. intros E. injection E. exact IH.
Qed.

(** X9. The key of the object tells the second of the upload: for one
    ground-truth URI, two upload times that [datetime.now] can return give
    the same key only if they are the same second.  Runs in different
    seconds never write to the same key. *)
Theorem object_key_tells_the_second (gt : string) (t1 t2 : datetime) :
  valid_datetime t1 = true -> valid_datetime t2 = true ->
  object_key gt t1 = object_key gt t2 -> t1 = t2.
Proof.
  intros V1 V2 E. unfold object_key in E. apply append_inv_head in E.
  unfold valid_datetime in V1, V2.
  repeat (apply andb_prop in V1 as [V1 ?]). repeat (apply andb_prop in V2 as [V2 ?]).
  repeat match goal with
         | Hb : (_ <=? _)%nat = true |- _ => apply Nat.leb_le in Hb
         | Hb : (_ <? _)%nat = true |- _ => apply Nat.ltb_lt in Hb
         end.
  destruct t1 as [y1 m1 d1 h1 mi1 s1], t2 as [y2 m2 d2 h2 mi2 s2].
  cbn [year month day hour minute second] in *.
  unfold strftime, pad4, pad2 in E.
  cbn [year month day hour minute second] in E.
  cbv [String.append] in E.
  injection E as Ey3 Ey2 Ey1 Ey0 Em1 Em0 Ed1 Ed0 Eh1 Eh0 Emi1 Emi0 Es1 Es0.
  assert (y1 = y2) by (apply pad4_digits; assumption || lia).
  assert (m1 = m2) by (apply pad2_digits; assumption || lia).
  assert (d1 = d2) by (apply pad2_digits; assumption || lia).
  assert (h1 = h2) by (apply pad2_digits; assumption || lia).
  assert (mi1 = mi2) by (apply pad2_digits; assumption || lia).
  assert (s1 = s2) by (apply pad2_digits; assumption || lia).
  congruence.
Qed.

(** ** The quality as a dial *)

Lemma float_lt_le_trans (u : Q) (q q' : pyfloat) :
  float_lt (Finite u) q = true -> float_le q q' = true ->
  float_lt (Finite u) q' = true.
Proof.
  destruct q as [a| | |], q' as [b| | |]; cbn; try discriminate; auto.
  unfold Qltb. intros Hlt Hle. apply negb_true_iff in Hlt.
  apply Qle_bool_iff in Hle. apply negb_true_iff.
  destruct (Qle_bool b u) eqn:E; [|reflexivity].
  apply Qle_bool_iff in E.
  assert (Qle_bool a u = true) as Hau
    by (apply Qle_bool_iff; eapply Qle_trans; eassumption).
  congruence.
Qed.

(** X10. Raising the quality never loses a kept prediction: when, from
    some state of the generator, the prediction is kept at quality [q], it
    is kept at every quality [q' >= q], with the same state of the generator
    afterwards.  A quality that is NaN keeps nothing: it gives exactly what
    0.0 gives. *)
Theorem get_label_monotone_in_quality
    (ds : string) (gt : option string) (q q' : pyfloat)
    (prediction : string) (w : world G) :
  float_le q q' = true ->
  float_lt (Finite (fst (random (gen w)))) q = true ->
  _get_label (Flow ds gt q) prediction w
    = (Ok prediction, set_gen (snd (random (gen w))) w)
  /\ _get_label (Flow ds gt q') prediction w
    = (Ok prediction, set_gen (snd (random (gen w))) w)
  /\ _get_label (Flow ds gt NaN) prediction w
    = _get_label (Flow ds gt (Finite 0)) prediction w.
Proof.
  intros Hle Hlt. rewrite !get_label_unfold. cbn [ground_truth_quality].
  rewrite Hlt, (float_lt_le_trans _ q q' Hlt Hle).
  split; [reflexivity|]. split; [reflexivity|].
  destruct (random_range (gen w)) as [H0 _].
  rewrite (float_lt_above_zero _ (Finite 0) H0 eq_refl). reflexivity.
Qed.

(** ** The payload is plain ASCII *)

Lemma all_printable_append (a b : string) :
  all_printable (a ++ b) = all_printable a && all_printable b.
Proof.
  induction a as [|c a IH]; [reflexivity|].
  rewrite append_cons. cbn [all_printable]. rewrite IH. now rewrite andb_assoc.
Qed.

Lemma escape_char_printable (c : ascii) : all_printable (escape_char c) = true.
Proof. destruct c as [[] [] [] [] [] [] [] []]; reflexivity. Qed.

Lemma quote_printable (s : string) : all_printable (quote s) = true.
Proof.
  unfold quote. cbn [all_printable]. rewrite all_printable_append.
  assert (all_printable (escape s) = true) as ->; [|reflexivity].
  induction s as [|c s IH]; [reflexivity|].
  cbn [escape]. now rewrite all_printable_append, escape_char_printable.
Qed.

Lemma join_printable (sep : string) (l : list string) :
  all_printable sep = true ->
  Forall (fun s => all_printable s = true) l ->
  all_printable (join sep l) = true.
Proof.
  intros Hsep. induction 1 as [|x l Hx Hl IH]; [reflexivity|].
  destruct l as [|y l]; [exact Hx|].
  rewrite join_cons_cons, !all_printable_append, Hx, Hsep. exact IH.
Qed.

Lemma dumps_printable (j : json) : all_printable (dumps j) = true.
Proof.
  induction j as [s|items IH|members IH] using json_induction.
  - apply quote_printable.
  - cbn [dumps]. rewrite !all_printable_append.
    rewrite join_printable; [reflexivity|reflexivity|].
    apply Forall_map. exact IH.
  - cbn [dumps]. rewrite !all_printable_append.
    rewrite join_printable; [reflexivity|reflexivity|].
    apply Forall_map. eapply List.Forall_impl; [|exact IH].
    intros [k v] Hv. cbn [fst snd] in *.
    now rewrite !all_printable_append, quote_printable, Hv.
Qed.

(** X11. Whatever characters the event ids and the predictions hold
    (quotes, backslashes, newlines, control or non-ASCII characters), every
    record the labeling loop serializes is made of the characters
    [' '..'~'] only, hence holds no raw newline: the payload is plain ASCII
    with one record per line. *)
Theorem label_events_records_are_ascii
    (self : Labeling) (data : list S3.row) (w : world G) :
  exists records w',
    label_events self data w = (Ok records, w')
    /\ length records = length (groupby_event_id data)
    /\ Forall (fun s => all_printable s = true /\ occurs newline s = false) records.
Proof.
  destruct w as [g f o t c tr].
  destruct (label_events_spec self data g) as (events & g' & E & Hev).
  eexists. eexists. split; [apply E|].
  split; [rewrite length_map; symmetry; eapply Forall2_length; exact Hev|].
  apply List.Forall_forall. intros s Hs.
  apply in_map_iff in Hs as (ev & <- & _).
  split; [apply dumps_printable|apply dumps_no_newline].
Qed.

(** ** Quality 1.0 and above: the labels are the predictions *)

Lemma get_label_keeps (self : Labeling) (prediction : string) (g : G) f o t c tr :
  float_le (Finite 1) (ground_truth_quality self) = true ->
  _get_label self prediction (World g f o t c tr)
  = (Ok prediction, World (snd (random g)) f o t c tr).
Proof.
  intros Hq. rewrite get_label_unfold. cbn [gen].
  destruct (random_range g) as [_ H1].
  now rewrite (float_lt_below_one _ _ H1 Hq).
Qed.

Lemma sqlite_loop_keeps (self : Labeling) (rows : list Sqlite.row) :
  float_le (Finite 1) (ground_truth_quality self) = true ->
  forall g f o t path d tr,
  exists g',
    for_each rows (sqlite_body self)
      (World g f o t (Some (Connection path d false)) tr)
    = (Ok (map (fun _ => tt) rows),
       World g' f o t
         (Some (Connection path
                  (apply_updates (combine (map Sqlite.prediction rows)
                                          (map Sqlite.uuid rows)) d) false))
         (tr ++ update_events (combine (map Sqlite.prediction rows)
                                       (map Sqlite.uuid rows)))).
Proof.
  intros Hq. induction rows as [|r rows IH]; intros g f o t path d tr.
  - exists g. cbn. now rewrite app_nil_r.
  - destruct (IH (snd (random g)) f o t path
                 (update_species (Sqlite.prediction r) (Sqlite.uuid r) d)
                 (tr ++ [SqlUpdate (Sqlite.prediction r) (Sqlite.uuid r)])%list)
      as (g' & E').
    exists g'. cbn [for_each].
    erewrite bind_ok;
      [|unfold sqlite_body; erewrite bind_ok; [|now apply get_label_keeps];
        apply execute_update_open].
    erewrite bind_ok; [|exact E'].
    cbn. now rewrite <- app_assoc.
Qed.

Lemma row_after_hit_exact (label : Sqlite.row -> string) (df : list Sqlite.row) :
  List.NoDup (map Sqlite.uuid df) ->
  forall r, In r df ->
    row_after (combine (map label df) (map Sqlite.uuid df)) r = set_species (label r) r.
Proof.
  induction df as [|r0 df IH]; intros Hnd r Hin; [destruct Hin|].
  cbn [map] in Hnd. inversion Hnd as [|? ? Hnotin Hnd']; subst.
  cbn [map combine]. rewrite row_after_cons.
  destruct Hin as [->|Hin].
  - rewrite row_update_hit. apply row_after_miss. intros Hin. apply Hnotin.
    eapply in_snd_combine. exact Hin.
  - assert (Sqlite.uuid r <> Sqlite.uuid r0) as Hne.
    { intros E. apply Hnotin. rewrite <- E. now apply in_map. }
    rewrite row_update_miss by exact Hne. now apply IH.
Qed.

(** X12. With a quality of 1.0 or more and uuids that identify the rows,
    the table the SQLite adapter commits does not depend on the random
    generator: every unlabeled row gets its own prediction as its label and
    every other row is as it was. *)
Theorem sqlite_full_quality_copies_predictions
    (self : Labeling) (w : world G) (data : list Sqlite.row) :
  float_le (Finite 1) (ground_truth_quality self) = true ->
  files w !! datastore_uri self = Some data ->
  List.NoDup (map Sqlite.uuid data) ->
  exists w',
    _label_sqlite_data self w = (Ok (length (select_unlabeled data)), w')
    /\ files w' !! datastore_uri self
       = Some (map (fun r => if unlabeled r
                             then set_species (Sqlite.prediction r) r else r) data).
Proof.
  intros Hq Hf Hnd. destruct w as [g f o t c tr]. cbn [files] in *.
  destruct (select_unlabeled data) as [|r0 df0] eqn:Edf.
  - eexists. split; [apply (label_sqlite_empty self data); eassumption|].
    cbn [files]. rewrite Hf. f_equal. symmetry.
    rewrite <- (map_id data) at 2. apply map_ext_in. intros r Hr.
    destruct (unlabeled r) eqn:Eu; [|reflexivity].
    assert (In r (select_unlabeled data)) as Hin
      by (apply filter_In; auto).
    rewrite Edf in Hin. destruct Hin.
  - destruct (sqlite_loop_keeps self (select_unlabeled data) Hq g f o t
                (datastore_uri self) data
                (tr ++ [SqlConnect (datastore_uri self); SqlSelectUnlabeled;
                        LogInfo (LoadedFromDatabase
                                   (length (select_unlabeled data)))])%list)
      as (g' & E).
    eexists. split.
    { unfold _label_sqlite_data.
      erewrite bind_ok; [|apply connect_found; eassumption].
      erewrite bind_ok; [|apply select_open].
      erewrite bind_ok; [|apply call_event].
      rewrite Edf in *. cbn [is_empty].
      erewrite bind_ok; [|rewrite <- !app_assoc; exact E].
      erewrite bind_ok; [|apply commit_open].
      erewrite bind_ok; [|apply close_open].
      reflexivity. }
    cbn [files]. rewrite lookup_insert_eq. f_equal.
    rewrite <- Edf. rewrite apply_updates_rows. apply map_ext_in. intros r Hr.
    destruct (unlabeled r) eqn:Eu.
    + apply row_after_hit_exact; [now apply nodup_map_filter|].
      apply filter_In. auto.
    + apply row_after_miss. intros Hin. apply in_snd_combine in Hin.
      apply in_map_iff in Hin as (r' & E' & Hr').
      apply filter_In in Hr' as [Hr' Hu].
      assert (r' = r) as -> by (eapply nodup_map_inj; eauto).
      congruence.
Qed.

Lemma label_rows_keeps (self : Labeling) (rows : list S3.row) :
  float_le (Finite 1) (ground_truth_quality self) = true ->
  forall (g : G), exists g', forall f o t c tr,
    for_each rows (fun row => _get_label self (S3.prediction row))
      (World g f o t c tr)
    = (Ok (map S3.prediction rows), World g' f o t c tr).
Proof.
  intros Hq. induction rows as [|r rows IH]; intros g.
  - exists g. reflexivity.
  - destruct (IH (snd (random g))) as (g' & E'). exists g'. intros.
    cbn [for_each]. erewrite bind_ok; [|now apply get_label_keeps].
    erewrite bind_ok; [|apply E']. reflexivity.
Qed.

(** The records of the data when every label is the prediction. *)
Lemma label_events_keeps (self : Labeling) (data : list S3.row) :
  float_le (Finite 1) (ground_truth_quality self) = true ->
  forall (g : G), exists g', forall f o t c tr,
    label_events self data (World g f o t c tr)
    = (Ok (map (fun eg => dumps (ground_truth_record
                                   (map S3.prediction (snd eg)) (fst eg)))
               (groupby_event_id data)),
       World g' f o t c tr).
Proof.
  intros Hq. unfold label_events. generalize (groupby_event_id data) as groups.
  induction groups as [|eg groups IH]; intros g.
  - exists g. reflexivity.
  - destruct (label_rows_keeps self (snd eg) Hq g) as (g1 & E).
    destruct (IH g1) as (g' & E'). exists g'. intros.
    cbn [for_each map].
    erewrite bind_ok; [|erewrite bind_ok; [|apply E]; reflexivity].
    erewrite bind_ok; [|apply E']. reflexivity.
Qed.

(** X13. With a quality of 1.0 or more the payload the SageMaker adapter
    puts is a function of the data alone: one record per event, in
    increasing order of event id, listing the predictions of the event's
    rows in their order. *)
Theorem sagemaker_full_quality_payload
    (self : Labeling) (gt bucket : string) (data : list S3.row) (w : world G) :
  float_le (Finite 1) (ground_truth_quality self) = true ->
  ground_truth_uri self = Some gt -> gt <> "" ->
  split "/" gt !! 2 = Some bucket ->
  load_unlabeled_data (objects w) (datastore_uri self) gt = Ok data ->
  data <> [] ->
  let payload :=
    lines (map (fun eg => dumps (ground_truth_record
                                   (map S3.prediction (snd eg)) (fst eg)))
               (groupby_event_id data)) in
  exists w',
    _label_sagemaker_data load_unlabeled_data self w = (Ok (length data), w')
    /\ objects w' = <[(bucket, object_key gt (utcnow w)) := payload]> (objects w).
Proof.
  intros Hq Hgt Hne Hbucket Hload Hdata payload.
  destruct w as [g f o t c tr]. cbn [objects utcnow] in *.
  destruct (sagemaker_nonempty load_unlabeled_data self data g Hdata)
    as (events & g' & _ & E & Eall).
  destruct (label_events_keeps self data Hq g) as (g'' & Ek).
  specialize (E f o t c tr). rewrite (Ek f o t c tr) in E.
  injection E as Erec _.
  rewrite (Eall gt f o t c tr Hgt Hne Hload), Hbucket, <- Erec.
  eexists. split; reflexivity.
Qed.

End MoreProperties.

(** ** The further properties at concrete inputs *)

Lemma sqlite_leaves_no_row_unlabeled_witness :
  files (sqlite_world table_shared) !! datastore_uri sqlite_flow = Some table_shared
  /\ exists data' w',
       _label_sqlite_data sqlite_flow (sqlite_world table_shared)
       = (Ok (length (select_unlabeled table_shared)), w')
       /\ files w' !! datastore_uri sqlite_flow = Some data'
       /\ map Sqlite.uuid data' = map Sqlite.uuid table_shared
       /\ map Sqlite.prediction data' = map Sqlite.prediction table_shared
       /\ map Sqlite.features data' = map Sqlite.features table_shared
       /\ Forall (fun r => Sqlite.species r <> None) data'
       /\ select_unlabeled data' = [].
Proof.
  split; [reflexivity|].
  exact (sqlite_leaves_no_row_unlabeled sqlite_flow (sqlite_world table_shared)
           table_shared eq_refl).
Defined.

Lemma sqlite_second_run_labels_nothing_witness :
  files (sqlite_world table0) !! datastore_uri sqlite_flow = Some table0
  /\ exists w1 w2,
       _label_sqlite_data sqlite_flow (sqlite_world table0)
       = (Ok (length (select_unlabeled table0)), w1)
       /\ _label_sqlite_data sqlite_flow w1 = (Ok 0, w2)
       /\ files w2 = files w1.
Proof.
  split; [reflexivity|].
  destruct (sqlite_second_run_labels_nothing sqlite_flow (sqlite_world table0)
              table0 eq_refl) as (w1 & w2 & E1 & E2 & Hf & _).
  exists w1, w2. auto.
Defined.

Lemma run_sqlite_calls_witness :
  String.prefix "sqlite://" (datastore_uri sqlite_flow) = true
  /\ files (sqlite_world table0) !! datastore_uri sqlite_flow = Some table0
  /\ exists updates w',
       run (fixed_loader []) sqlite_flow (sqlite_world table0) = (Ok 2, w')
       /\ map snd updates = ["u1"; "u3"]
       /\ trace w'
          = ([SqlConnect "sqlite://penguins.db"; SqlSelectUnlabeled;
              LogInfo (LoadedFromDatabase 2)]
             ++ update_events updates
             ++ [SqlCommit; SqlClose; LogInfo (LabeledSamples 2)])%list.
Proof.
  split; [reflexivity|]. split; [reflexivity|].
  destruct (run_sqlite_calls (fixed_loader []) sqlite_flow (sqlite_world table0)
              table0 eq_refl eq_refl) as (updates & w' & E & Hu & _ & Ht).
  exists updates, w'. auto.
Defined.

Lemma run_propagates_load_error_witness :
  String.prefix "s3://" (datastore_uri (s3_flow (Some ground_truth0))) = true
  /\ failing_loader StorageError (objects (s3_world ∅))
       (datastore_uri (s3_flow (Some ground_truth0))) ground_truth0
     = Raise StorageError
  /\ exists w',
       run (failing_loader StorageError) (s3_flow (Some ground_truth0)) (s3_world ∅)
       = (Raise StorageError, w')
       /\ trace w' = [S3Client; S3Load "s3://bucket/datastore" ground_truth0]
       /\ objects w' = ∅.
Proof.
  split; [reflexivity|]. split; [reflexivity|].
  destruct (run_propagates_load_error (failing_loader StorageError)
              (s3_flow (Some ground_truth0)) ground_truth0 StorageError (s3_world ∅)
              eq_refl eq_refl ltac:(discriminate) eq_refl)
    as (w' & E & Ht & _ & Ho).
  exists w'. auto.
Defined.

Lemma run_s3_without_data_witness :
  String.prefix "s3://" (datastore_uri (s3_flow (Some "ground-truth"))) = true
  /\ "ground-truth" <> ""
  /\ exists w',
       run (fixed_loader []) (s3_flow (Some "ground-truth")) (s3_world ∅) = (Ok 0, w')
       /\ trace w' = [S3Client; S3Load "s3://bucket/datastore" "ground-truth";
                      LogInfo (LoadedFromS3 0); LogInfo (LabeledSamples 0)]
       /\ objects w' = ∅.
Proof.
  split; [reflexivity|]. split; [discriminate|].
  destruct (run_s3_without_data (fixed_loader []) (s3_flow (Some "ground-truth"))
              "ground-truth" (s3_world ∅)
              eq_refl eq_refl ltac:(discriminate) eq_refl)
    as (w' & E & Ht & _ & Ho).
  exists w'. auto.
Defined.

Lemma sagemaker_puts_into_uri_bucket_witness :
  occurs "/" "bucket" = false
  /\ captured <> []
  /\ exists payload w',
       _label_sagemaker_data (fixed_loader captured)
         (s3_flow (Some "s3://bucket/ground-truth")) (s3_world ∅) = (Ok 3, w')
       /\ objects w'
          = <[("bucket", "ground-truth2024/05/06/07/0809.jsonl") := payload]> ∅.
Proof.
  split; [reflexivity|]. split; [discriminate|].
  destruct (sagemaker_puts_into_uri_bucket (fixed_loader captured)
              (s3_flow (Some "s3://bucket/ground-truth")) "bucket" "ground-truth"
              captured (s3_world ∅) eq_refl eq_refl eq_refl ltac:(discriminate))
    as (payload & w' & E & Ho & _).
  exists payload, w'. auto.
Defined.

Lemma object_key_tells_the_second_witness :
  valid_datetime noon = true
  /\ valid_datetime (Datetime 2024 5 6 7 8 9) = true
  /\ object_key ground_truth0 noon = key0
  /\ noon = Datetime 2024 5 6 7 8 9.
Proof.
  split; [reflexivity|]. split; [reflexivity|]. split; [reflexivity|].
  exact (object_key_tells_the_second ground_truth0 noon (Datetime 2024 5 6 7 8 9)
           eq_refl eq_refl eq_refl).
Defined.

Lemma get_label_monotone_in_quality_witness :
  float_le quality_default (Finite 1) = true
  /\ float_lt (Finite (fst (random (gen (sqlite_world table0))))) quality_default = true
  /\ fst (_get_label (Flow "sqlite://penguins.db" None (Finite 1)) "Adelie"
            (sqlite_world table0)) = Ok "Adelie".
Proof.
  assert (Hlt : float_lt (Finite (fst (random (gen (sqlite_world table0)))))
                   quality_default = true) by reflexivity.
  split; [reflexivity|]. split; [exact Hlt|].
  destruct (get_label_monotone_in_quality "sqlite://penguins.db" None
              quality_default (Finite 1) "Adelie" (sqlite_world table0)
              eq_refl Hlt) as (_ & E & _).
  now rewrite E.
Defined.

Lemma sqlite_full_quality_copies_predictions_witness :
  float_le (Finite 1) (Finite 1) = true
  /\ List.NoDup (map Sqlite.uuid table0)
  /\ exists w',
       _label_sqlite_data (Flow "sqlite://penguins.db" None (Finite 1))
         (sqlite_world table0) = (Ok 2, w')
       /\ files w' !! "sqlite://penguins.db"
          = Some [ Sqlite.Row "u1" "Adelie" (Some "Adelie") [("island", "Biscoe")];
                   Sqlite.Row "u2" "Gentoo" (Some "Gentoo") [];
                   Sqlite.Row "u3" "Chinstrap" (Some "Chinstrap") [] ].
Proof.
  assert (Hnd : List.NoDup (map Sqlite.uuid table0)).
  { cbn. repeat constructor; cbn; intuition discriminate. }
  split; [reflexivity|]. split; [exact Hnd|].
  exact (sqlite_full_quality_copies_predictions
           (Flow "sqlite://penguins.db" None (Finite 1)) (sqlite_world table0)
           table0 eq_refl eq_refl Hnd).
Defined.

Lemma sagemaker_full_quality_payload_witness :
  float_le (Finite 1) PosInf = true
  /\ split "/" ground_truth0 !! 2 = Some "bucket"
  /\ exists w',
       _label_sagemaker_data (fixed_loader captured)
         (Flow "s3://bucket/datastore" (Some ground_truth0) PosInf) (s3_world ∅)
       = (Ok 3, w')
       /\ objects w'
          = <[("bucket", key0) :=
                lines [ dumps (ground_truth_record ["Adelie"; "Chinstrap"] "e1");
                        dumps (ground_truth_record ["Gentoo"] "e2") ]]> ∅.
Proof.
  split; [reflexivity|]. split; [reflexivity|].
  exact (sagemaker_full_quality_payload (fixed_loader captured)
           (Flow "s3://bucket/datastore" (Some ground_truth0) PosInf)
           ground_truth0 "bucket" captured (s3_world ∅)
           eq_refl eq_refl ltac:(discriminate) eq_refl eq_refl ltac:(discriminate)).
Defined.
